(** * Voltic AI bot: the retrieval-augmented-generation core

    A shallow embedding of the RAG pipeline of the bot
    ([rag_system/document_uploader.py], [rag_system/rag_engine.py],
    [rag_system/embedding_service.py], [rag_system/rag_database.py],
    [rag_system/rag_system.py], [ai_service.py]) and the properties of
    ingestion, retrieval, batch embedding, start-up and generation.

    Python values are modelled as follows.
    - [str] is a list of Unicode code points ([pystr]); literals of the
      source are written as Rocq strings and decoded from UTF-8 by [lit].
    - [bytes] is a list of [Byte.byte].
    - [float] is the binary64 primitive float of Rocq.
    - [int] is [Z]; lengths, counters and loop indices are [nat].
    - a coroutine is a function from the state of the world to an outcome
      ([Ok] value or [Raise]d exception) and a new state; [await] is the
      bind of that monad.  The event loop never interleaves two steps of
      the functions below, so one call is one state transformer.
    - libraries and services outside the repository (hashlib, PyPDF2,
      python-docx, langchain's splitter, the OpenAI endpoints, the
      PostgreSQL server, the clock) are the fields of [Env]. *)

From Stdlib Require Import String Ascii.
From Stdlib Require Import Strings.Byte.
From Stdlib Require Import List ZArith NArith Arith Bool Lia Sorted.
From Stdlib Require Import DecimalString.
From Stdlib Require Import Floats.PrimFloat Floats.SpecFloat Floats.FloatOps.
From Stdlib Require Import Floats.FloatAxioms.
Import ListNotations.

Local Open Scope list_scope.

(* ===================================================================== *)
(** ** Python strings *)
(* ===================================================================== *)

Module PyStr.

(** A Python [str]: the sequence of its code points. *)
Definition pystr := list N.

(** [bytes.decode('utf-8')], strict: a state machine over the bytes.
    [pending] continuation bytes are still expected, the next one in
    [lo..hi]; [acc] holds the bits read so far. *)
Fixpoint utf8_go (bs : list byte) (pending : nat) (acc lo hi : N)
  : option pystr :=
  match bs with
  | [] => match pending with O => Some [] | S _ => None end
  | b :: r =>
    let n := Byte.to_N b in
    match pending with
    | O =>
      if (n <? 128)%N then option_map (cons n) (utf8_go r 0 0%N 0%N 0%N)
      else if ((194 <=? n) && (n <=? 223))%N
           then utf8_go r 1 (N.land n 31) 128%N 191%N
      else if (n =? 224)%N then utf8_go r 2 (N.land n 15) 160%N 191%N
      else if (n =? 237)%N then utf8_go r 2 (N.land n 15) 128%N 159%N
      else if ((225 <=? n) && (n <=? 239))%N
           then utf8_go r 2 (N.land n 15) 128%N 191%N
      else if (n =? 240)%N then utf8_go r 3 (N.land n 7) 144%N 191%N
      else if (n =? 244)%N then utf8_go r 3 (N.land n 7) 128%N 143%N
      else if ((241 <=? n) && (n <=? 243))%N
           then utf8_go r 3 (N.land n 7) 128%N 191%N
      else None
    | S p =>
      if ((lo <=? n) && (n <=? hi))%N then
        let acc' := (acc * 64 + N.land n 63)%N in
        match p with
        | O => option_map (cons acc') (utf8_go r 0 0%N 0%N 0%N)
        | S _ => utf8_go r p acc' 128%N 191%N
        end
      else None
    end
  end.

Definition decode_utf8 (bs : list byte) : option pystr :=
  utf8_go bs 0 0%N 0%N 0%N.

(** A literal of the (UTF-8) source file. *)
Definition lit (s : string) : pystr :=
  match decode_utf8 (list_byte_of_string s) with
  | Some t => t
  | None => []
  end.

(** The upper half of code page 1251; byte 0x98 is unassigned. *)
Definition cp1251_high : list (option N) :=
  map Some [1026; 1027; 8218; 1107; 8222; 8230; 8224; 8225; 8364; 8240;
            1033; 8249; 1034; 1036; 1035; 1039; 1106; 8216; 8217; 8220;
            8221; 8226; 8211; 8212]%N
  ++ [None]
  ++ map Some [8482; 1113; 8250; 1114; 1116; 1115; 1119; 160; 1038; 1118;
               1032; 164; 1168; 166; 167; 1025; 169; 1028; 171; 172; 173;
               174; 1031; 176; 177; 1030; 1110; 1169; 181; 182; 183; 1105;
               8470; 1108; 187; 1112; 1029; 1109; 1111]%N
  ++ map (fun k => Some (1040 + N.of_nat k)%N) (seq 0 64).

(** [bytes.decode('cp1251')]. *)
Fixpoint decode_cp1251 (bs : list byte) : option pystr :=
  match bs with
  | [] => Some []
  | b :: r =>
    let n := Byte.to_N b in
    let c := if (n <? 128)%N then Some n
             else nth (N.to_nat n - 128) cp1251_high None in
    match c with
    | Some c => option_map (cons c) (decode_cp1251 r)
    | None => None
    end
  end.

(** [bytes.decode('latin-1')] never fails. *)
Definition decode_latin1 (bs : list byte) : option pystr :=
  Some (map Byte.to_N bs).

Definition eqb (a b : pystr) : bool :=
  if list_eq_dec N.eq_dec a b then true else false.

(** [str.isspace] on one code point, as [str.strip] uses it. *)
Definition is_space (c : N) : bool :=
  (((9 <=? c) && (c <=? 13)) || ((28 <=? c) && (c <=? 32))
   || (c =? 133) || (c =? 160) || (c =? 5760)
   || ((8192 <=? c) && (c <=? 8202))
   || (c =? 8232) || (c =? 8233) || (c =? 8239) || (c =? 8287)
   || (c =? 12288))%N.

Fixpoint lstrip (s : pystr) : pystr :=
  match s with
  | [] => []
  | c :: r => if is_space c then lstrip r else s
  end.

Definition rstrip (s : pystr) : pystr := rev (lstrip (rev s)).

(** [s.strip()]. *)
Definition strip (s : pystr) : pystr := rstrip (lstrip s).

Fixpoint starts_with (p s : pystr) : bool :=
  match p, s with
  | [], _ => true
  | _ :: _, [] => false
  | a :: p', b :: s' => (a =? b)%N && starts_with p' s'
  end.

(** [s.replace(old, new)] for a non-empty [old]: occurrences are found
    left to right and do not overlap.  [skip] counts the characters of
    the occurrence found last that are still to be dropped. *)
Fixpoint replace_go (old new s : pystr) (skip : nat) : pystr :=
  match s with
  | [] => []
  | c :: r =>
    match skip with
    | S k => replace_go old new r k
    | O =>
      if starts_with old s
      then new ++ replace_go old new r (length old - 1)
      else c :: replace_go old new r 0
    end
  end.

Definition replace (old new s : pystr) : pystr := replace_go old new s 0.

(** [sep.join(parts)]. *)
Fixpoint join (sep : pystr) (parts : list pystr) : pystr :=
  match parts with
  | [] => []
  | [p] => p
  | p :: rest => p ++ sep ++ join sep rest
  end.

Fixpoint take_until (c : N) (s : pystr) : pystr :=
  match s with
  | [] => []
  | x :: r => if (x =? c)%N then [] else x :: take_until c r
  end.

(** [s.split(c)[-1]]: what follows the last [c], or all of [s]. *)
Definition last_field (c : N) (s : pystr) : pystr :=
  rev (take_until c (rev s)).

(** [c in s] for a single character. *)
Definition has_char (c : N) (s : pystr) : bool :=
  existsb (N.eqb c) s.

(** [str(n)] for a non-negative integer. *)
Definition of_nat (n : nat) : pystr :=
  map N_of_ascii (list_ascii_of_string (NilZero.string_of_uint (Nat.to_uint n))).

(** Truth value of a string: non-empty. *)
Definition truthy (s : pystr) : bool :=
  match s with [] => false | _ :: _ => true end.

(** Number of characters that are not white space. *)
Definition non_space_count (s : pystr) : nat :=
  length (filter (fun c => negb (is_space c)) s).

(** [needle in s]: [needle] occurs in [s] as a substring. *)
Fixpoint contains (needle s : pystr) : bool :=
  starts_with needle s
  || match s with
     | [] => false
     | _ :: r => contains needle r
     end.

End PyStr.
Import PyStr.
Arguments lit : simpl never.

(* ===================================================================== *)
(** ** Data model *)
(* ===================================================================== *)

(** An embedding: [List[float]]. *)
Definition vec := list float.

(** The exceptions that the modelled code raises or catches; all of them
    are subclasses of [Exception]. *)
Inductive exn : Type :=
| TimeoutError
| IndexError
| KeyError
| AttributeError
| UniqueViolationError
| ForeignKeyViolationError
| PostgresError
| ConnectionError
| APIError (status : Z)
| LibraryError (message : pystr).

(** Outcome of a call: a value or a raised exception. *)
Inductive res (A : Type) : Type :=
| Ok (a : A)
| Raise (e : exn).
Arguments Ok {A} a.
Arguments Raise {A} e.

(** The [metadata] dict that [_process_and_save] attaches to a chunk. *)
Record chunk_metadata : Type := {
  md_filename : pystr;
  md_chunk_index : nat;
  md_total_chunks : nat;
  md_uploaded_by : Z
}.

(** A row of [rag_documents] ([created_at] is not read by the modelled
    code and is left out). *)
Record document_row : Type := {
  doc_id : Z;
  doc_filename : pystr;
  doc_file_hash : pystr;
  doc_uploaded_by : Z;
  doc_total_chunks : nat
}.

(** A row of [rag_chunks]. *)
Record chunk_row : Type := {
  ch_id : Z;
  ch_document_id : Z;
  ch_chunk_index : nat;
  ch_content : pystr;
  ch_embedding : vec;
  ch_metadata : chunk_metadata
}.

(** A row of [rag_usage_stats]. *)
Record usage_row : Type := {
  us_id : Z;
  us_user_id : Z;
  us_query : pystr;
  us_chunks_used : nat;
  us_response_time_ms : Z
}.

(** A dict of the list that [search_chunks] returns.  The keys that
    [_build_context] reads with [.get] may be absent ([None]). *)
Record found_chunk : Type := {
  fc_id : Z;
  fc_content : pystr;
  fc_metadata : chunk_metadata;
  fc_filename : option pystr;
  fc_similarity : option float
}.

(** A chat message [{"role": ..., "content": ...}]; the system prompt is
    [None] when its file could not be read. *)
Record message : Type := {
  role : pystr;
  content : option pystr
}.

(** What the chat endpoint answers: the [content] of each choice and
    [usage.total_tokens]; either may be missing. *)
Record chat_response : Type := {
  choices : list (option pystr);
  usage_total_tokens : option Z
}.

(** The [input] of an embeddings request: a string or a list of them. *)
Inductive embed_input : Type :=
| OneText (text : pystr)
| ManyTexts (texts : list pystr).

(** A python-docx document: paragraph texts and, per table, per row, the
    cell texts. *)
Record docx : Type := {
  paragraphs : list pystr;
  tables : list (list (list pystr))
}.

(** The SQL statements the code sends, with their parameters. *)
Inductive db_stmt : Type :=
| SelectDocumentByHash (file_hash : pystr)
| InsertDocument (filename file_hash : pystr) (uploaded_by : Z)
| InsertChunk (document_id : Z) (chunk_index : nat) (chunk_content : pystr)
              (embedding : vec) (metadata : chunk_metadata)
| UpdateTotalChunks (total : nat) (id : Z)
| SelectNearestChunks (query_embedding : vec) (limit : nat)
| InsertUsage (user_id : Z) (query : pystr) (chunks_used : nat)
              (response_time_ms : Z)
| CountDocuments
| CountChunks
| CountUsageToday
| CountUsage.

Inductive file_kind : Type := KindPdf | KindText | KindDocx.

(** What the code asks of its environment, in order. *)
Inductive event : Type :=
| EvDb (s : db_stmt)
| EvExtract (k : file_kind)
| EvSplit (text : pystr)
| EvEmbed (input : embed_input)
| EvChat (messages : list message)
| EvConnect
| EvSleep (seconds : Z).

(** Libraries and services outside the repository.  The services answer
    by call number, so an environment fixes one possible history. *)
Record Env : Type := {
  (** [hashlib.md5(b).hexdigest()] *)
  md5_hexdigest : list byte -> pystr;
  (** [str.lower] *)
  str_lower : pystr -> pystr;
  (** [str(e)] *)
  exn_str : exn -> pystr;
  (** [format(x, '.2f')] *)
  format_2f : float -> pystr;
  (** [PyPDF2.PdfReader]: the [extract_text()] of each page *)
  pdf_reader : list byte -> res (list (res pystr));
  (** [docx.Document] *)
  docx_document : list byte -> res docx;
  (** [RecursiveCharacterTextSplitter.split_text] *)
  split_text : pystr -> list pystr;
  (** [client.embeddings.create]: the [embedding] of each item of
      [response.data] *)
  embeddings_create : nat -> embed_input -> res (list vec);
  (** [asyncio.wait_for(client.chat.completions.create(...), timeout)];
      a timeout is [Raise TimeoutError] *)
  chat_completions_create : nat -> list message -> Z -> res chat_response;
  (** whether the server executes the statement; a statement it refuses
      (connection lost, value out of range, ...) raises *)
  db_accepts : nat -> db_stmt -> bool;
  (** pgvector's [<=>] *)
  cosine_distance : vec -> vec -> float;
  (** [RAGDatabase.connect]: [asyncpg.create_pool] and table creation *)
  db_connect : nat -> res unit;
  (** construction of the embedding client *)
  new_embedding_client : pystr -> res unit;
  (** [datetime.now()], in microseconds *)
  now : nat -> Z;
  (** [int((t1 - t0).total_seconds() * 1000)] *)
  elapsed_ms : Z -> Z -> Z
}.

(** The state of the world: the three tables with their SERIAL
    sequences, how often each service was called, and the trace. *)
Record world : Type := {
  rag_documents : list document_row;
  rag_chunks : list chunk_row;
  rag_usage_stats : list usage_row;
  documents_seq : Z;
  chunks_seq : Z;
  usage_seq : Z;
  db_calls : nat;
  embed_calls : nat;
  chat_calls : nat;
  clock_reads : nat;
  connect_calls : nat;
  trace : list event
}.

(** A database with empty tables, as [_create_tables] leaves it. *)
Definition empty_world : world :=
  {| rag_documents := []; rag_chunks := []; rag_usage_stats := [];
     documents_seq := 1; chunks_seq := 1; usage_seq := 1;
     db_calls := 0; embed_calls := 0; chat_calls := 0; clock_reads := 0;
     connect_calls := 0; trace := [] |}.

(* ===================================================================== *)
(** ** Coroutines: state and exceptions *)
(* ===================================================================== *)

Definition M (A : Type) : Type := world -> res A * world.

Definition ret {A} (a : A) : M A := fun w => (Ok a, w).

Definition bind {A B} (m : M A) (k : A -> M B) : M B :=
  fun w => match m w with
           | (Ok a, w') => k a w'
           | (Raise e, w') => (Raise e, w')
           end.

Definition raise {A} (e : exn) : M A := fun w => (Raise e, w).

(** [try: m except Exception as e: h e] *)
Definition try_except {A} (m : M A) (h : exn -> M A) : M A :=
  fun w => match m w with
           | (Ok a, w') => (Ok a, w')
           | (Raise e, w') => h e w'
           end.

Definition get : M world := fun w => (Ok w, w).
Definition put (w : world) : M unit := fun _ => (Ok tt, w).

(** Lift an outcome computed by a library. *)
Definition of_res {A} (r : res A) : M A := fun w => (r, w).

Declare Scope py_scope.
Delimit Scope py_scope with py.
Notation "x <- m ;; k" := (bind m (fun x => k))
  (at level 100, m at next level, right associativity) : py_scope.
Notation "m ;; k" := (bind m (fun _ => k))
  (at level 100, right associativity) : py_scope.
Local Open Scope py_scope.

Definition log_event (e : event) : M unit :=
  fun w =>
    (Ok tt,
     {| rag_documents := rag_documents w; rag_chunks := rag_chunks w;
        rag_usage_stats := rag_usage_stats w;
        documents_seq := documents_seq w; chunks_seq := chunks_seq w;
        usage_seq := usage_seq w;
        db_calls := db_calls w; embed_calls := embed_calls w;
        chat_calls := chat_calls w; clock_reads := clock_reads w;
        connect_calls := connect_calls w; trace := trace w ++ [e] |}).

Definition set_documents (ds : list document_row) (seq : Z) (w : world) : world :=
  {| rag_documents := ds; rag_chunks := rag_chunks w;
     rag_usage_stats := rag_usage_stats w;
     documents_seq := seq; chunks_seq := chunks_seq w;
     usage_seq := usage_seq w;
     db_calls := db_calls w; embed_calls := embed_calls w;
     chat_calls := chat_calls w; clock_reads := clock_reads w;
     connect_calls := connect_calls w; trace := trace w |}.

Definition set_chunks (cs : list chunk_row) (seq : Z) (w : world) : world :=
  {| rag_documents := rag_documents w; rag_chunks := cs;
     rag_usage_stats := rag_usage_stats w;
     documents_seq := documents_seq w; chunks_seq := seq;
     usage_seq := usage_seq w;
     db_calls := db_calls w; embed_calls := embed_calls w;
     chat_calls := chat_calls w; clock_reads := clock_reads w;
     connect_calls := connect_calls w; trace := trace w |}.

Definition set_usage (us : list usage_row) (seq : Z) (w : world) : world :=
  {| rag_documents := rag_documents w; rag_chunks := rag_chunks w;
     rag_usage_stats := us;
     documents_seq := documents_seq w; chunks_seq := chunks_seq w;
     usage_seq := seq;
     db_calls := db_calls w; embed_calls := embed_calls w;
     chat_calls := chat_calls w; clock_reads := clock_reads w;
     connect_calls := connect_calls w; trace := trace w |}.

(** Count one more call of each service. *)
Definition tick_db (w : world) : world :=
  {| rag_documents := rag_documents w; rag_chunks := rag_chunks w;
     rag_usage_stats := rag_usage_stats w;
     documents_seq := documents_seq w; chunks_seq := chunks_seq w;
     usage_seq := usage_seq w;
     db_calls := S (db_calls w); embed_calls := embed_calls w;
     chat_calls := chat_calls w; clock_reads := clock_reads w;
     connect_calls := connect_calls w; trace := trace w |}.

Definition tick_embed (w : world) : world :=
  {| rag_documents := rag_documents w; rag_chunks := rag_chunks w;
     rag_usage_stats := rag_usage_stats w;
     documents_seq := documents_seq w; chunks_seq := chunks_seq w;
     usage_seq := usage_seq w;
     db_calls := db_calls w; embed_calls := S (embed_calls w);
     chat_calls := chat_calls w; clock_reads := clock_reads w;
     connect_calls := connect_calls w; trace := trace w |}.

Definition tick_chat (w : world) : world :=
  {| rag_documents := rag_documents w; rag_chunks := rag_chunks w;
     rag_usage_stats := rag_usage_stats w;
     documents_seq := documents_seq w; chunks_seq := chunks_seq w;
     usage_seq := usage_seq w;
     db_calls := db_calls w; embed_calls := embed_calls w;
     chat_calls := S (chat_calls w); clock_reads := clock_reads w;
     connect_calls := connect_calls w; trace := trace w |}.

Definition tick_clock (w : world) : world :=
  {| rag_documents := rag_documents w; rag_chunks := rag_chunks w;
     rag_usage_stats := rag_usage_stats w;
     documents_seq := documents_seq w; chunks_seq := chunks_seq w;
     usage_seq := usage_seq w;
     db_calls := db_calls w; embed_calls := embed_calls w;
     chat_calls := chat_calls w; clock_reads := S (clock_reads w);
     connect_calls := connect_calls w; trace := trace w |}.

Definition tick_connect (w : world) : world :=
  {| rag_documents := rag_documents w; rag_chunks := rag_chunks w;
     rag_usage_stats := rag_usage_stats w;
     documents_seq := documents_seq w; chunks_seq := chunks_seq w;
     usage_seq := usage_seq w;
     db_calls := db_calls w; embed_calls := embed_calls w;
     chat_calls := chat_calls w; clock_reads := clock_reads w;
     connect_calls := S (connect_calls w); trace := trace w |}.

(* ===================================================================== *)
(** ** rag_database.py *)
(* ===================================================================== *)

Module RAGDatabase.
Section WithEnv.
Context (E : Env).

(** [async with self.pool.acquire() as conn: await conn.<call>(stmt)]:
    the statement is sent; the server executes it or raises. *)
Definition execute (s : db_stmt) : M unit :=
  fun w =>
    let w1 := tick_db w in
    match log_event (EvDb s) w1 with
    | (_, w2) =>
      if db_accepts E (db_calls w) s then (Ok tt, w2)
      else (Raise PostgresError, w2)
    end.

(** [SELECT id FROM rag_documents WHERE file_hash = $1] with
    [fetchval]: the id of the first row found, or [None]. *)
Definition select_document_by_hash (file_hash : pystr) : M (option Z) :=
  execute (SelectDocumentByHash file_hash) ;;
  w <- get ;;
  ret (option_map doc_id
         (find (fun d => PyStr.eqb (doc_file_hash d) file_hash)
               (rag_documents w))).

(** [add_document]: the INSERT takes the next value of the SERIAL
    sequence, fails on the UNIQUE constraint of [file_hash], and
    otherwise stores the row with [total_chunks] at its DEFAULT 0. *)
Definition add_document (filename file_hash : pystr) (user_id : Z) : M Z :=
  execute (InsertDocument filename file_hash user_id) ;;
  w <- get ;;
  let id := documents_seq w in
  if existsb (fun d => PyStr.eqb (doc_file_hash d) file_hash) (rag_documents w)
  then put (set_documents (rag_documents w) (id + 1) w) ;;
       raise UniqueViolationError
  else
    put (set_documents
           (rag_documents w ++
              [{| doc_id := id; doc_filename := filename;
                  doc_file_hash := file_hash; doc_uploaded_by := user_id;
                  doc_total_chunks := 0 |}])
           (id + 1) w) ;;
    ret id.

(** [add_chunk]: one INSERT into [rag_chunks]; [document_id] must
    reference a document. *)
Definition add_chunk (document_id : Z) (chunk_index : nat) (content : pystr)
    (embedding : vec) (metadata : chunk_metadata) : M unit :=
  execute (InsertChunk document_id chunk_index content embedding metadata) ;;
  w <- get ;;
  let id := chunks_seq w in
  if existsb (fun d => (doc_id d =? document_id)%Z) (rag_documents w)
  then
    put (set_chunks
           (rag_chunks w ++
              [{| ch_id := id; ch_document_id := document_id;
                  ch_chunk_index := chunk_index; ch_content := content;
                  ch_embedding := embedding; ch_metadata := metadata |}])
           (id + 1) w)
  else put (set_chunks (rag_chunks w) (id + 1) w) ;;
       raise ForeignKeyViolationError.

(** [UPDATE rag_documents SET total_chunks = $1 WHERE id = $2]. *)
Definition update_total_chunks (total : nat) (id : Z) : M unit :=
  execute (UpdateTotalChunks total id) ;;
  w <- get ;;
  put (set_documents
         (map (fun d =>
                 if (doc_id d =? id)%Z
                 then {| doc_id := doc_id d; doc_filename := doc_filename d;
                         doc_file_hash := doc_file_hash d;
                         doc_uploaded_by := doc_uploaded_by d;
                         doc_total_chunks := total |}
                 else d)
              (rag_documents w))
         (documents_seq w) w).

(** [ORDER BY c.embedding <=> $1]: ascending distance, NaN last; rows at
    the same distance keep their table order. *)
Definition distance_le (a b : float) : bool :=
  PrimFloat.is_nan b || PrimFloat.leb a b.

Fixpoint insert_by_distance (x : float * found_chunk)
    (l : list (float * found_chunk)) : list (float * found_chunk) :=
  match l with
  | [] => [x]
  | y :: r =>
    if distance_le (fst y) (fst x) then y :: insert_by_distance x r
    else x :: l
  end.

Definition order_by_distance (l : list (float * found_chunk))
  : list (float * found_chunk) :=
  fold_left (fun acc x => insert_by_distance x acc) l [].

(** The rows of [rag_chunks c JOIN rag_documents d ON c.document_id =
    d.id] with their distance to the query and the dict built from each. *)
Definition joined_rows (query_embedding : vec) (w : world)
  : list (float * found_chunk) :=
  flat_map
    (fun c =>
       match find (fun d => (doc_id d =? ch_document_id c)%Z)
                  (rag_documents w) with
       | Some d =>
         let dist := cosine_distance E (ch_embedding c) query_embedding in
         [(dist,
           {| fc_id := ch_id c; fc_content := ch_content c;
              fc_metadata := ch_metadata c;
              fc_filename := Some (doc_filename d);
              fc_similarity := Some (PrimFloat.sub 1 dist) |})]
       | None => []
       end)
    (rag_chunks w).

(** [search_chunks]. *)
Definition search_chunks (query_embedding : vec) (limit : nat)
  : M (list found_chunk) :=
  execute (SelectNearestChunks query_embedding limit) ;;
  w <- get ;;
  ret (map snd (firstn limit (order_by_distance (joined_rows query_embedding w)))).

(** [log_usage]. *)
Definition log_usage (user_id : Z) (query : pystr) (chunks_used : nat)
    (response_time_ms : Z) : M unit :=
  execute (InsertUsage user_id query chunks_used response_time_ms) ;;
  w <- get ;;
  let id := usage_seq w in
  put (set_usage
         (rag_usage_stats w ++
            [{| us_id := id; us_user_id := user_id; us_query := query;
                us_chunks_used := chunks_used;
                us_response_time_ms := response_time_ms |}])
         (id + 1) w).

(** The status string of a DELETE that removed [n] rows. *)
Definition delete_status (n : nat) : pystr := lit "DELETE " ++ PyStr.of_nat n.

(** [delete_document]: the DELETE removes the documents with this id
    and, by ON DELETE CASCADE, the chunks that reference them; the call
    returns whether ["DELETE 1"] occurs in the status string.  Whether
    the server executes the statement is [accepted]; the statement is
    counted but has no entry in the trace. *)
Definition delete_document (accepted : bool) (doc_id_ : Z) : M bool :=
  fun w =>
    let w1 := tick_db w in
    if accepted then
      let deleted :=
        filter (fun d => (doc_id d =? doc_id_)%Z) (rag_documents w1) in
      let w2 :=
        set_documents
          (filter (fun d => negb (doc_id d =? doc_id_)%Z) (rag_documents w1))
          (documents_seq w1)
          (set_chunks
             (filter (fun c => negb (ch_document_id c =? doc_id_)%Z)
                     (rag_chunks w1))
             (chunks_seq w1) w1) in
      (Ok (contains (lit "DELETE 1") (delete_status (length deleted))), w2)
    else (Raise PostgresError, w1).

(** [get_document_stats]: the two counts, [or 0] included. *)
Definition get_document_stats : M (nat * nat) :=
  execute CountDocuments ;;
  execute CountChunks ;;
  w <- get ;;
  ret (length (rag_documents w), length (rag_chunks w)).

End WithEnv.
End RAGDatabase.

(* ===================================================================== *)
(** ** embedding_service.py *)
(* ===================================================================== *)

Module EmbeddingService.
Section WithEnv.
Context (E : Env).

(** The character cap on what is sent to the provider: 8000. *)
Definition char_cap : nat := 8 * 1000.

(** [t[:8000] if len(t) > 8000 else t] *)
Definition truncate_input (t : pystr) : pystr :=
  if char_cap <? length t then firstn char_cap t else t.

(** [await self.client.embeddings.create(model=..., input=...)] *)
Definition request (input : embed_input) : M (list vec) :=
  fun w =>
    match log_event (EvEmbed input) (tick_embed w) with
    | (_, w1) => (embeddings_create E (embed_calls w) input, w1)
    end.

(** [create_embedding]: the embedding, or [None] on any error. *)
Definition create_embedding (text : pystr) : M (option vec) :=
  try_except
    (let text : pystr :=
       if char_cap <? length text then firstn char_cap text else text in
     data <- request (OneText text) ;;
     match data with
     | v :: _ => ret (Some v)
     | [] => raise IndexError
     end)
    (fun _ => ret None).

(** [create_embeddings_batch]: one request for all texts. *)
Definition create_embeddings_batch (texts : list pystr)
  : M (list (option vec)) :=
  try_except
    (let processed_texts := map truncate_input texts in
     data <- request (ManyTexts processed_texts) ;;
     ret (map Some data))
    (fun _ => ret (repeat None (length texts))).

End WithEnv.
End EmbeddingService.
Arguments EmbeddingService.char_cap : simpl never.

(* ===================================================================== *)
(** ** document_uploader.py *)
(* ===================================================================== *)

Module DocumentUploader.

(** The dict a [process_*] call returns: [{'success': True, ...}] or
    [{'success': False, 'error': ...}]. *)
Inductive upload_result : Type :=
| UploadOk (document_id : Z) (filename : pystr) (chunks_created : nat)
           (total_text_length : nat)
| UploadError (error : pystr).

Definition success (r : upload_result) : bool :=
  match r with UploadOk _ _ _ _ => true | UploadError _ => false end.

Definition msg_duplicate : pystr := lit "Этот документ уже загружен".
Definition msg_pdf_unreadable : pystr :=
  lit "Не удалось извлечь текст из PDF (файл пустой или защищён)".
Definition msg_text_unreadable : pystr :=
  lit "Не удалось прочитать текст из файла".
Definition msg_docx_unreadable : pystr :=
  lit "Не удалось извлечь текст из DOCX (файл пустой или повреждён)".
Definition msg_no_chunks : pystr :=
  lit "Не удалось разбить документ на части".
Definition msg_unsupported (ext : pystr) : pystr :=
  lit "Неподдерживаемый формат файла: ." ++ ext
  ++ lit ". Используйте PDF, TXT, MD или DOCX.".

(** ['\x00'] and ["\n\n"]. *)
Definition nul : pystr := [0%N].
Definition blank_line : pystr := [10%N; 10%N].

(** [if existing:] for the value [fetchval] returned. *)
Definition truthy_id (existing : option Z) : bool :=
  match existing with
  | Some id => negb (id =? 0)%Z
  | None => false
  end.

(** [if text and text.strip()] *)
Definition has_text (t : pystr) : bool := truthy t && truthy (strip t).

(** The codecs [process_text] tries, in order. *)
Definition encodings : list (list byte -> option pystr) :=
  [decode_utf8; decode_cp1251; decode_latin1].

(** The [for encoding in ...: try ... break / except: continue] loop. *)
Fixpoint decode_first (codecs : list (list byte -> option pystr))
    (file_bytes : list byte) : option pystr :=
  match codecs with
  | [] => None
  | decode :: rest =>
    match decode file_bytes with
    | Some text => Some text
    | None => decode_first rest file_bytes
    end
  end.

(** Steps 3 of [process_text]: the first codec that decodes the bytes,
    then [if text: text = text.replace('\x00', '')]. *)
Definition decoded_text (file_bytes : list byte) : option pystr :=
  match decode_first encodings file_bytes with
  | Some t => if truthy t then Some (replace nul [] t) else Some t
  | None => None
  end.

(** The page loop of [_extract_pdf_text]. *)
Fixpoint pdf_text_parts (pages : list (res pystr)) (text_parts : list pystr)
  : res (list pystr) :=
  match pages with
  | [] => Ok text_parts
  | Raise e :: _ => Raise e
  | Ok text :: rest =>
    pdf_text_parts rest
      (if has_text text then text_parts ++ [text] else text_parts)
  end.

(** The cell loop of one table row of [_extract_docx_text]. *)
Definition docx_row_text (cells : list pystr) : list pystr :=
  map strip (filter has_text cells).

Definition docx_text_parts (d : docx) : list pystr :=
  filter has_text (paragraphs d)
  ++ flat_map
       (fun table =>
          flat_map
            (fun row =>
               match docx_row_text row with
               | [] => []
               | row_text => [join (lit " | ") row_text]
               end)
            table)
       (tables d).

Section WithEnv.
Context (E : Env).

(** The value of [_extract_pdf_text]: the page texts joined by blank
    lines, without null characters; any exception gives the empty
    string. *)
Definition pdf_text (file_bytes : list byte) : pystr :=
  match pdf_reader E file_bytes with
  | Ok pages =>
    match pdf_text_parts pages [] with
    | Ok text_parts => replace nul [] (join blank_line text_parts)
    | Raise _ => []
    end
  | Raise _ => []
  end.

(** [_extract_pdf_text]. *)
Definition _extract_pdf_text (file_bytes : list byte) : M pystr :=
  log_event (EvExtract KindPdf) ;;
  ret (pdf_text file_bytes).

(** The value of [_extract_docx_text]. *)
Definition docx_text (file_bytes : list byte) : pystr :=
  match docx_document E file_bytes with
  | Ok d => replace nul [] (join blank_line (docx_text_parts d))
  | Raise _ => []
  end.

(** [_extract_docx_text]. *)
Definition _extract_docx_text (file_bytes : list byte) : M pystr :=
  log_event (EvExtract KindDocx) ;;
  ret (docx_text file_bytes).

(** The loop [for i, chunk_text in enumerate(chunks)] of
    [_process_and_save], from index [i] on; it returns
    [(processed_chunks, failed_chunks)]. *)
Fixpoint save_chunks (doc_id : Z) (filename : pystr) (user_id : Z)
    (total : nat) (i : nat) (chunks : list pystr)
    (processed_chunks failed_chunks : nat) : M (nat * nat) :=
  match chunks with
  | [] => ret (processed_chunks, failed_chunks)
  | chunk_text :: rest =>
    embedding <- EmbeddingService.create_embedding E chunk_text ;;
    match embedding with
    | None =>
      save_chunks doc_id filename user_id total (S i) rest
                  processed_chunks (S failed_chunks)
    | Some v =>
      RAGDatabase.add_chunk E doc_id i chunk_text v
        {| md_filename := filename; md_chunk_index := i;
           md_total_chunks := total; md_uploaded_by := user_id |} ;;
      save_chunks doc_id filename user_id total (S i) rest
                  (S processed_chunks) failed_chunks
    end
  end.

(** [_process_and_save]. *)
Definition _process_and_save (text filename file_hash : pystr) (user_id : Z)
  : M upload_result :=
  try_except
    (log_event (EvSplit text) ;;
     let chunks := split_text E text in
     match chunks with
     | [] => ret (UploadError msg_no_chunks)
     | _ :: _ =>
       doc_id <- RAGDatabase.add_document E filename file_hash user_id ;;
       counts <- save_chunks doc_id filename user_id (length chunks)
                             0 chunks 0 0 ;;
       let processed_chunks := fst counts in
       RAGDatabase.update_total_chunks E processed_chunks doc_id ;;
       ret (UploadOk doc_id filename processed_chunks (length text))
     end)
    (fun e => ret (UploadError (exn_str E e))).

(** [process_pdf]. *)
Definition process_pdf (file_bytes : list byte) (filename : pystr)
    (user_id : Z) : M upload_result :=
  try_except
    (let file_hash := md5_hexdigest E file_bytes in
     existing <- RAGDatabase.select_document_by_hash E file_hash ;;
     if truthy_id existing then ret (UploadError msg_duplicate)
     else
       text <- _extract_pdf_text file_bytes ;;
       if negb (truthy text) || (length (strip text) <? 10)
       then ret (UploadError msg_pdf_unreadable)
       else _process_and_save text filename file_hash user_id)
    (fun e => ret (UploadError (exn_str E e))).

(** [process_text]. *)
Definition process_text (file_bytes : list byte) (filename : pystr)
    (user_id : Z) : M upload_result :=
  try_except
    (let file_hash := md5_hexdigest E file_bytes in
     existing <- RAGDatabase.select_document_by_hash E file_hash ;;
     if truthy_id existing then ret (UploadError msg_duplicate)
     else
       log_event (EvExtract KindText) ;;
       let text := decoded_text file_bytes in
       match text with
       | None => ret (UploadError msg_text_unreadable)
       | Some text =>
         if negb (truthy text) || (length (strip text) <? 10)
         then ret (UploadError msg_text_unreadable)
         else _process_and_save text filename file_hash user_id
       end)
    (fun e => ret (UploadError (exn_str E e))).

(** [process_docx]. *)
Definition process_docx (file_bytes : list byte) (filename : pystr)
    (user_id : Z) : M upload_result :=
  try_except
    (let file_hash := md5_hexdigest E file_bytes in
     existing <- RAGDatabase.select_document_by_hash E file_hash ;;
     if truthy_id existing then ret (UploadError msg_duplicate)
     else
       text <- _extract_docx_text file_bytes ;;
       if negb (truthy text) || (length (strip text) <? 10)
       then ret (UploadError msg_docx_unreadable)
       else _process_and_save text filename file_hash user_id)
    (fun e => ret (UploadError (exn_str E e))).

(** [filename.lower().split('.')[-1] if '.' in filename else ''] *)
Definition file_ext (filename : pystr) : pystr :=
  if has_char 46%N filename
  then last_field 46%N (str_lower E filename)
  else [].

Definition ext_in (ext : pystr) (l : list pystr) : bool :=
  existsb (PyStr.eqb ext) l.

(** [process_file]: dispatch on the extension. *)
Definition process_file (file_bytes : list byte) (filename : pystr)
    (user_id : Z) : M upload_result :=
  let ext := file_ext filename in
  if PyStr.eqb ext (lit "pdf") then process_pdf file_bytes filename user_id
  else if ext_in ext [lit "txt"; lit "md"; lit "text"]
       then process_text file_bytes filename user_id
  else if ext_in ext [lit "docx"; lit "doc"]
       then process_docx file_bytes filename user_id
  else ret (UploadError (msg_unsupported ext)).

(** [delete_document]: any exception gives [False]. *)
Definition delete_document (accepted : bool) (document_id : Z) : M bool :=
  try_except
    (RAGDatabase.delete_document accepted document_id)
    (fun _ => ret false).

End WithEnv.
End DocumentUploader.

(* ===================================================================== *)
(** ** ai_service.py *)
(* ===================================================================== *)

Module OpenAIAssistant.

(** The prompts an assistant object holds; a prompt is [None] when its
    file could not be read. *)
Record assistant : Type := {
  system_prompt : option pystr;
  system_prompt_rag : option pystr
}.

Definition msg_timeout : pystr :=
  lit "⏳ Sorry, the response is taking longer than expected. Please try again later or use the menu buttons.".
Definition msg_unavailable : pystr :=
  lit "The AI assistant is currently unavailable. Please use the menu buttons or try again later.".

(** [history[-max_history * 2:]] when the history is longer. *)
Definition bound_history (history : list message) : list message :=
  let max_history := 3 in
  if max_history * 2 <? length history
  then skipn (length history - max_history * 2) history
  else history.

(** The [messages] list of [get_response]. *)
Definition build_messages (self : assistant) (user_message : pystr)
    (history : option (list message)) (RAG : bool) : list message :=
  let messages :=
    if RAG
    then [{| role := lit "system"; content := system_prompt_rag self |}]
    else [{| role := lit "system"; content := system_prompt self |}] in
  let messages :=
    match history with
    | Some ((_ :: _) as history) => messages ++ bound_history history
    | _ => messages
    end in
  messages ++ [{| role := lit "user"; content := Some user_message |}].

Section WithEnv.
Context (E : Env).

(** The awaited provider call. *)
Definition chat_request (messages : list message) (timeout : Z)
  : M chat_response :=
  fun w =>
    match log_event (EvChat messages) (tick_chat w) with
    | (_, w1) => (chat_completions_create E (chat_calls w) messages timeout, w1)
    end.

(** [get_response]. *)
Definition get_response (self : assistant) (user_message : pystr)
    (user_id : Z) (history : option (list message)) (timeout : Z)
    (RAG : bool) : M pystr :=
  let messages := build_messages self user_message history RAG in
  try_except
    (response <- chat_request messages timeout ;;
     match choices response with
     | [] => raise IndexError
     | None :: _ => raise AttributeError
     | Some text :: _ =>
       let ai_response := strip text in
       let ai_response := strip (replace (lit "```") [] ai_response) in
       match usage_total_tokens response with
       | None => raise AttributeError
       | Some _ => ret ai_response
       end
     end)
    (fun e =>
       match e with
       | TimeoutError => ret msg_timeout
       | _ => ret msg_unavailable
       end).

End WithEnv.
End OpenAIAssistant.

(* ===================================================================== *)
(** ** rag_engine.py *)
(* ===================================================================== *)

Module RAGEngine.

(** The dict [process_query] returns on the augmented path. *)
Record query_result : Type := {
  qr_success : bool;
  qr_response : pystr;
  qr_rag_used : bool;
  qr_chunks_used : nat;
  qr_response_time_ms : Z;
  qr_chunks : list found_chunk
}.

(** [self.similarity_threshold = 0.7]: the binary64 nearest to 0.7. *)
Definition similarity_threshold : float := 0x1.6666666666666p-1%float.

(** [chunk['similarity'] >= self.similarity_threshold]; the subscript
    raises when the key is missing. *)
Definition is_relevant (chunk : found_chunk) : res bool :=
  match fc_similarity chunk with
  | Some s => Ok (PrimFloat.leb similarity_threshold s)
  | None => Raise KeyError
  end.

(** [[chunk for chunk in chunks if chunk['similarity'] >= threshold]] *)
Fixpoint relevant_chunks (chunks : list found_chunk)
  : res (list found_chunk) :=
  match chunks with
  | [] => Ok []
  | chunk :: rest =>
    match is_relevant chunk with
    | Raise e => Raise e
    | Ok keep =>
      match relevant_chunks rest with
      | Raise e => Raise e
      | Ok kept => Ok (if keep then chunk :: kept else kept)
      end
    end
  end.

(** [_build_prompt]. *)
Definition _build_prompt (query context : pystr) : pystr :=
  lit "Use this information from the knowledge base to answer the question:"
  ++ [10; 10]%N ++ lit "INFORMATION FROM THE KNOWLEDGE BASE:" ++ [10%N]
  ++ context ++ [10; 10]%N ++ lit "USER QUESTION:" ++ [10%N]
  ++ query ++ [10%N].

(** [_clean_response]. *)
Definition _clean_response (response : pystr) : pystr :=
  strip (replace (lit "релевантность:") []
           (replace (lit "[Источник:") [] response)).

Section WithEnv.
Context (E : Env).

(** The loop of [_build_context], from index [i] on: the entries it
    appends to [context_parts]. *)
Fixpoint context_parts (i : nat) (chunks : list found_chunk) : list pystr :=
  match chunks with
  | [] => []
  | chunk :: rest =>
    let content := fc_content chunk in
    let content :=
      if 500 <? length content then firstn 500 content ++ lit "..."
      else content in
    let source :=
      match fc_filename chunk with
      | Some filename => filename
      | None => lit "Документ " ++ PyStr.of_nat (i + 1)
      end in
    let similarity :=
      match fc_similarity chunk with
      | Some s => s
      | None => 0%float
      end in
    (lit "[Источник: " ++ source ++ lit ", релевантность: "
     ++ format_2f E similarity ++ lit "]:" ++ [10%N] ++ content)
    :: context_parts (S i) rest
  end.

(** [_build_context]. *)
Definition _build_context (chunks : list found_chunk) : pystr :=
  join [10; 10]%N (context_parts 0 chunks).

(** [datetime.now()] *)
Definition datetime_now : M Z :=
  fun w => (Ok (now E (clock_reads w)), tick_clock w).

(** [process_query]; [None] is the no-opinion outcome. *)
Definition process_query (assistant : OpenAIAssistant.assistant)
    (query : pystr) (user_id : Z) (history : option (list message))
  : M (option query_result) :=
  start_time <- datetime_now ;;
  try_except
    (query_embedding <- EmbeddingService.create_embedding E query ;;
     match query_embedding with
     | None => ret None
     | Some query_embedding =>
       chunks <- RAGDatabase.search_chunks E query_embedding 4 ;;
       relevant <- of_res (relevant_chunks chunks) ;;
       match relevant with
       | [] => ret None
       | _ :: _ =>
         let context := _build_context relevant in
         let prompt := _build_prompt query context in
         response <- OpenAIAssistant.get_response E assistant prompt user_id
                       history 15 true ;;
         let clean_response := _clean_response response in
         end_time <- datetime_now ;;
         let response_time := elapsed_ms E start_time end_time in
         RAGDatabase.log_usage E user_id query (length relevant)
                               response_time ;;
         ret (Some {| qr_success := true; qr_response := clean_response;
                      qr_rag_used := true;
                      qr_chunks_used := length relevant;
                      qr_response_time_ms := response_time;
                      qr_chunks := relevant |})
       end
     end)
    (fun _ => ret None).

(** [get_stats]: four counting queries; any exception gives the error
    dict, here [None].  ([queries_today] compares [created_at], which the
    tables here do not keep, with the server's date and is left out.) *)
Definition get_stats : M (option (nat * nat * nat)) :=
  try_except
    (RAGDatabase.execute E CountDocuments ;;
     RAGDatabase.execute E CountChunks ;;
     RAGDatabase.execute E CountUsageToday ;;
     RAGDatabase.execute E CountUsage ;;
     w <- get ;;
     ret (Some (length (rag_documents w), length (rag_chunks w),
                length (rag_usage_stats w))))
    (fun _ => ret None).

End WithEnv.
End RAGEngine.

(* ===================================================================== *)
(** ** rag_system.py and the start-up code of main.py *)
(* ===================================================================== *)

Module RagSystem.

(** The fields of [config.Settings] that start-up reads. *)
Record settings : Type := {
  RAG_ENABLED : bool;
  AI_ENABLED : bool;
  POSTGRES_PORT_RAG : pystr;
  OPENAI_API_KEY : pystr
}.

Definition max_retries : nat := 5.
Definition retry_delay : Z := 2.

Section WithEnv.
Context (E : Env).

(** [await rag_db.connect()] *)
Definition connect : M unit :=
  fun w =>
    match log_event EvConnect (tick_connect w) with
    | (_, w1) => (db_connect E (connect_calls w), w1)
    end.

(** [await asyncio.sleep(wait_time)] *)
Definition sleep (wait_time : Z) : M unit := log_event (EvSleep wait_time).

(** The loop [for attempt in range(max_retries)] over the attempts that
    are left: [break] on success; on failure sleep and go on, or re-raise
    on the last attempt. *)
Fixpoint connect_loop (attempts : list nat) : M unit :=
  match attempts with
  | [] => ret tt
  | attempt :: rest =>
    try_except
      connect
      (fun e =>
         if attempt <? max_retries - 1 then
           let wait_time := (retry_delay * 2 ^ Z.of_nat attempt)%Z in
           sleep wait_time ;;
           connect_loop rest
         else raise e)
  end.

(** [init_rag_system]. *)
Definition init_rag_system (s : settings) : M bool :=
  try_except
    (if negb (RAG_ENABLED s) then ret false
     else if negb (truthy (POSTGRES_PORT_RAG s)) then ret false
     else
       connect_loop (seq 0 max_retries) ;;
       of_res (new_embedding_client E (OPENAI_API_KEY s)) ;;
       RAGEngine.get_stats E ;;
       ret true)
    (fun _ => ret false).

(** The RAG part of [main_async]: the value of [rag_initialized] with
    which start-up goes on. *)
Definition main_init_rag (s : settings) : M bool :=
  if RAG_ENABLED s && AI_ENABLED s
  then try_except (init_rag_system s) (fun _ => ret false)
  else ret false.

End WithEnv.
End RagSystem.

(* ===================================================================== *)
(** ** A concrete environment *)
(* ===================================================================== *)

(** One environment on which the code can be run: stand-ins for the
    libraries and services, simple but with the behaviour of the real
    ones on the inputs used below. *)
Module Demo.

(** MD5 digests of the contents used below, as [hashlib] computes them;
    any other content is rendered in hexadecimal. *)
Definition hex_digit (n : N) : N :=
  if (n <? 10)%N then (48 + n)%N else (87 + n)%N.

Definition hex_of_bytes (bs : list byte) : pystr :=
  flat_map (fun b => let n := Byte.to_N b in
                     [hex_digit (n / 16); hex_digit (n mod 16)]) bs.

Definition bytes_of (s : string) : list byte := list_byte_of_string s.

Definition short_bytes : list byte := bytes_of "short".
Definition spaced_bytes : list byte := bytes_of "a b c d e f".
Definition wind_bytes : list byte :=
  bytes_of "Wind turbines: capacity factor 35%.".

Definition bytes_eqb (a b : list byte) : bool :=
  if list_eq_dec Byte.byte_eq_dec a b then true else false.

Definition demo_md5 (bs : list byte) : pystr :=
  if bytes_eqb bs short_bytes then lit "4f09daa9d95bcb166a302407a0e0babe"
  else if bytes_eqb bs spaced_bytes then lit "6b7a59f92f21d297c0030fcfa69862eb"
  else if bytes_eqb bs wind_bytes then lit "e4316c4b37c0971296044ee5a32f5def"
  else hex_of_bytes bs.

(** [str.lower] on ASCII letters. *)
Definition demo_lower (s : pystr) : pystr :=
  map (fun c => if ((65 <=? c) && (c <=? 90))%N then (c + 32)%N else c) s.

(** [str(e)]: here the name of the exception class. *)
Definition demo_exn_str (e : exn) : pystr :=
  match e with
  | TimeoutError => lit "TimeoutError"
  | IndexError => lit "list index out of range"
  | KeyError => lit "KeyError"
  | AttributeError => lit "AttributeError"
  | UniqueViolationError => lit "duplicate key value violates unique constraint"
  | ForeignKeyViolationError => lit "violates foreign key constraint"
  | PostgresError => lit "PostgresError"
  | ConnectionError => lit "connection refused"
  | APIError _ => lit "APIError"
  | LibraryError m => m
  end.

(** [format(x, '.2f')]: the exact value of the float times 100, rounded
    to the nearest integer, ties to even. *)
Definition round_half_even (num den : Z) : Z :=
  let q := (num / den)%Z in
  let r := (num mod den)%Z in
  match (2 * r ?= den)%Z with
  | Lt => q
  | Gt => (q + 1)%Z
  | Eq => if Z.even q then q else (q + 1)%Z
  end.

Definition two_digits (n : Z) : pystr :=
  [(48 + Z.to_N (n / 10))%N; (48 + Z.to_N (n mod 10))%N].

Definition demo_format_2f (x : float) : pystr :=
  match Prim2SF x with
  | S754_nan => lit "nan"
  | S754_infinity s => if s then lit "-inf" else lit "inf"
  | S754_zero s => (if s then lit "-" else []) ++ lit "0.00"
  | S754_finite s m e =>
    let hundredths :=
      if (0 <=? e)%Z then (Z.pos m * 2 ^ e * 100)%Z
      else round_half_even (Z.pos m * 100) (2 ^ (- e)) in
    (if s then lit "-" else [])
    ++ PyStr.of_nat (Z.to_nat (hundredths / 100)) ++ lit "."
    ++ two_digits (hundredths mod 100)
  end.

(** Paragraphs: the pieces between blank lines. *)
Fixpoint split_blank (s cur : pystr) : list pystr :=
  match s with
  | [] => [rev cur]
  | c :: r =>
    match r with
    | c' :: r' =>
      if ((c =? 10) && (c' =? 10))%N then rev cur :: split_blank r' []
      else split_blank r (c :: cur)
    | [] => [rev (c :: cur)]
    end
  end.

(** The splitter: a text of at most 1000 characters is one chunk; a
    longer one is cut at its blank lines. *)
Definition demo_split (text : pystr) : list pystr :=
  let t := strip text in
  match t with
  | [] => []
  | _ :: _ =>
    if length t <=? 1000 then [t]
    else filter truthy (map strip (split_blank t []))
  end.

(** The embedding of a text: fixed by its first letter. *)
Definition demo_vector (t : pystr) : vec :=
  match t with
  | c :: _ =>
    if (c =? 97)%N then [1; 0]%float
    else if (c =? 98)%N then [0; 1]%float
    else [0x1.3333333333333p-1; 0x1.999999999999ap-1]%float
  | [] => [0; 0]%float
  end.

(** The embeddings endpoint: the calls numbered in [fails] fail, and so
    does a request with an empty text. *)
Definition demo_embeddings (fails : list nat) (k : nat) (input : embed_input)
  : res (list vec) :=
  if existsb (Nat.eqb k) fails then Raise (APIError 429)
  else
    match input with
    | OneText t =>
      if truthy t then Ok [demo_vector t] else Raise (APIError 400)
    | ManyTexts ts =>
      if forallb truthy ts then Ok (map demo_vector ts)
      else Raise (APIError 400)
    end.

Definition dot (a b : vec) : float :=
  fold_left PrimFloat.add (map (fun p => PrimFloat.mul (fst p) (snd p)) (combine a b)) 0%float.

(** Cosine distance. *)
Definition demo_distance (a b : vec) : float :=
  PrimFloat.sub 1
    (PrimFloat.div (dot a b)
       (PrimFloat.mul (PrimFloat.sqrt (dot a a)) (PrimFloat.sqrt (dot b b)))).

(** An environment: the embedding calls numbered in [embed_fails] fail,
    the server refuses the statements numbered in [db_fails], the first
    [connect_fails] connection attempts fail, and the chat endpoint
    always gives [chat]. *)
Definition env (embed_fails db_fails : list nat) (connect_fails : nat)
    (chat : res chat_response) : Env :=
  {| md5_hexdigest := demo_md5;
     str_lower := demo_lower;
     exn_str := demo_exn_str;
     format_2f := demo_format_2f;
     pdf_reader := fun _ => Raise (LibraryError (lit "EOF marker not found"));
     docx_document := fun _ => Raise (LibraryError (lit "File is not a zip file"));
     split_text := demo_split;
     embeddings_create := demo_embeddings embed_fails;
     chat_completions_create := fun _ _ _ => chat;
     db_accepts := fun k _ => negb (existsb (Nat.eqb k) db_fails);
     cosine_distance := demo_distance;
     db_connect := fun k => if k <? connect_fails then Raise ConnectionError
                            else Ok tt;
     new_embedding_client := fun _ => Ok tt;
     now := fun k => (1000000 * Z.of_nat k)%Z;
     elapsed_ms := fun t0 t1 => ((t1 - t0) / 1000)%Z |}.

Definition answer : res chat_response :=
  Ok {| choices := [Some (lit " About 35%. ")];
        usage_total_tokens := Some 42%Z |}.

(** Three paragraphs of 600 characters each. *)
Definition three_paragraphs : pystr :=
  repeat 97%N 600 ++ [10; 10]%N ++ repeat 98%N 600 ++ [10; 10]%N
  ++ repeat 99%N 600.

Definition assistant : OpenAIAssistant.assistant :=
  {| OpenAIAssistant.system_prompt := Some (lit "You are a helpful bot.");
     OpenAIAssistant.system_prompt_rag :=
       Some (lit "Answer from the knowledge base.") |}.

Definition settings : RagSystem.settings :=
  {| RagSystem.RAG_ENABLED := true; RagSystem.AI_ENABLED := true;
     RagSystem.POSTGRES_PORT_RAG := lit "postgresql://rag";
     RagSystem.OPENAI_API_KEY := lit "sk-demo" |}.

(** Every service answers. *)
Definition plain : Env := env [] [] 0 answer.

(** The second embedding request (call number 1) fails. *)
Definition second_embedding_fails : Env := env [1] [] 0 answer.

(** The fifth statement (call number 4) is refused by the server. *)
Definition fifth_statement_refused : Env := env [] [4] 0 answer.

(** The store cannot be reached during the first five attempts. *)
Definition store_down : Env := env [] [] 5 answer.

(** The store is reached at the third attempt. *)
Definition store_recovers : Env := env [] [] 2 answer.

(** A file about something else: twelve letters b. *)
Definition b_bytes : list byte := bytes_of "bbbbbbbbbbbb".

(** The store after [b_bytes] was ingested as [b.txt]. *)
Definition world_with_b : world :=
  snd (DocumentUploader.process_file plain b_bytes (lit "b.txt") 7
         empty_world).

(** The store after [wind_bytes] was ingested as [w.md]. *)
Definition world_with_wind : world :=
  snd (DocumentUploader.process_file plain wind_bytes (lit "w.md") 7
         empty_world).

(** The chat endpoint times out. *)
Definition chat_times_out : Env := env [] [] 0 (Raise TimeoutError).

(** The chat endpoint is rate limited. *)
Definition chat_rate_limited : Env := env [] [] 0 (Raise (APIError 429)).

End Demo.

(* ===================================================================== *)
(** ** Vocabulary of the properties *)
(* ===================================================================== *)

Import DocumentUploader.

Definition is_some {A} (o : option A) : bool :=
  match o with Some _ => true | None => false end.

(** What [create_embedding] returns on the [k]-th call of the provider. *)
Definition embed_outcome (E : Env) (k : nat) (text : pystr) : option vec :=
  match embeddings_create E k
          (OneText (if EmbeddingService.char_cap <? length text
                    then firstn EmbeddingService.char_cap text else text)) with
  | Ok (v :: _) => Some v
  | Ok [] => None
  | Raise _ => None
  end.

(** The chunk at source position [i] is embedded successfully, when the
    provider has answered [k0] calls before the first chunk. *)
Definition embedded_at (E : Env) (k0 : nat) (chunks : list pystr) (i : nat)
  : bool :=
  match nth_error chunks i with
  | Some text => is_some (embed_outcome E (k0 + i) text)
  | None => false
  end.

(** The positions embedded successfully, in source order. *)
Definition embedded_positions (E : Env) (k0 : nat) (chunks : list pystr)
  : list nat :=
  filter (embedded_at E k0 chunks) (seq 0 (length chunks)).

(** The same positions, computed along the loop. *)
Fixpoint embedded_from (E : Env) (k i : nat) (chunks : list pystr)
  : list nat :=
  match chunks with
  | [] => []
  | text :: rest =>
    (if is_some (embed_outcome E k text) then [i] else [])
    ++ embedded_from E (S k) (S i) rest
  end.

(** Referential integrity of the tables: document ids come from the
    SERIAL sequence, which starts at 1, and a chunk references a
    document. *)
Definition consistent (w : world) : Prop :=
  (0 < documents_seq w)%Z
  /\ (forall d, In d (rag_documents w) ->
        (0 < doc_id d < documents_seq w)%Z)
  /\ (forall c, In c (rag_chunks w) ->
        exists d, In d (rag_documents w) /\ doc_id d = ch_document_id c).

(** The chunks the loop skipped. *)
Definition skipped_positions (E : Env) (k0 : nat) (chunks : list pystr)
  : list nat :=
  filter (fun i => negb (embedded_at E k0 chunks i)) (seq 0 (length chunks)).

(** The rows of a document, in table order. *)
Definition chunks_of (doc : Z) (w : world) : list chunk_row :=
  filter (fun c => (ch_document_id c =? doc)%Z) (rag_chunks w).

Definition documents_with_id (doc : Z) (w : world) : list document_row :=
  filter (fun d => (doc_id d =? doc)%Z) (rag_documents w).

(** The world after the server was sent a statement. *)
Definition after_db (s : db_stmt) (w : world) : world :=
  snd (log_event (EvDb s) (tick_db w)).

(** A document with this digest is stored. *)
Definition has_digest (h : pystr) (w : world) : bool :=
  existsb (fun d => PyStr.eqb (doc_file_hash d) h) (rag_documents w).

(** What the duplicate lookup finds. *)
Definition stored_id (h : pystr) (w : world) : option Z :=
  option_map doc_id
    (find (fun d => PyStr.eqb (doc_file_hash d) h) (rag_documents w)).

(** The tables and the document sequence are the same. *)
Definition same_tables (w w' : world) : Prop :=
  rag_documents w' = rag_documents w
  /\ rag_chunks w' = rag_chunks w
  /\ rag_usage_stats w' = rag_usage_stats w
  /\ documents_seq w' = documents_seq w.

(** The branch [process_file] takes for an extension. *)
Definition kind_of_ext (ext : pystr) : option file_kind :=
  if PyStr.eqb ext (lit "pdf") then Some KindPdf
  else if ext_in ext [lit "txt"; lit "md"; lit "text"] then Some KindText
  else if ext_in ext [lit "docx"; lit "doc"] then Some KindDocx
  else None.

(** The text extracted from a file of each kind. *)
Definition extracted_text (E : Env) (k : file_kind) (file_bytes : list byte)
  : pystr :=
  match k with
  | KindPdf => pdf_text E file_bytes
  | KindDocx => docx_text E file_bytes
  | KindText =>
    match decoded_text file_bytes with Some t => t | None => [] end
  end.

(** The empty-or-unreadable rejection of each kind. *)
Definition msg_unreadable (k : file_kind) : pystr :=
  match k with
  | KindPdf => msg_pdf_unreadable
  | KindText => msg_text_unreadable
  | KindDocx => msg_docx_unreadable
  end.

(** A coroutine keeps the tables consistent, whatever its outcome. *)
Definition preserves {A} (m : M A) : Prop :=
  forall w r w', m w = (r, w') -> consistent w -> consistent w'.

(** The world after an embeddings request was sent. *)
Definition after_embed (input : embed_input) (w : world) : world :=
  snd (log_event (EvEmbed input) (tick_embed w)).

(** The world after a chat request was sent. *)
Definition after_chat (messages : list message) (w : world) : world :=
  snd (log_event (EvChat messages) (tick_chat w)).

(** The rows a search returns from the tables of [w]. *)
Definition search_result (E : Env) (v : vec) (limit : nat) (w : world)
  : list found_chunk :=
  map snd (firstn limit
             (RAGDatabase.order_by_distance (RAGDatabase.joined_rows E v w))).



(** A chunk passes the relevance filter. *)
Definition above_threshold (c : found_chunk) : bool :=
  match fc_similarity c with
  | Some s => PrimFloat.leb RAGEngine.similarity_threshold s
  | None => false
  end.

(** What [get_response] makes of the provider's answer. *)
Definition reply_of (r : res chat_response) : pystr :=
  match r with
  | Raise TimeoutError => OpenAIAssistant.msg_timeout
  | Raise _ => OpenAIAssistant.msg_unavailable
  | Ok response =>
    match choices response, usage_total_tokens response with
    | Some text :: _, Some _ => strip (replace (lit "```") [] (strip text))
    | _, _ => OpenAIAssistant.msg_unavailable
    end
  end.

(** The usage row of a successful query. *)
Definition usage_row_of (w : world) (user_id : Z) (query : pystr)
    (qr : RAGEngine.query_result) : usage_row :=
  {| us_id := usage_seq w; us_user_id := user_id; us_query := query;
     us_chunks_used := RAGEngine.qr_chunks_used qr;
     us_response_time_ms := RAGEngine.qr_response_time_ms qr |}.

(** The events of kind [EvChat] of a trace. *)
Definition chat_events (t : list event) : list event :=
  filter (fun e => match e with EvChat _ => true | _ => false end) t.





(** The delay before the attempt after attempt number [attempt]: the
    base delay 2, doubled with each attempt. *)
Definition backoff_delay (attempt : nat) : Z :=
  (RagSystem.retry_delay * 2 ^ Z.of_nat attempt)%Z.

(** The trace of [failures] failed connection attempts from attempt
    number [attempt] on, each followed by its delay. *)
Fixpoint failed_attempts (attempt failures : nat) : list event :=
  match failures with
  | O => []
  | S n =>
    EvConnect :: EvSleep (backoff_delay attempt)
    :: failed_attempts (S attempt) n
  end.

(** The delays slept in a trace. *)
Definition sleeps_of (t : list event) : list Z :=
  flat_map (fun e => match e with EvSleep d => [d] | _ => [] end) t.

(** The primary key of [rag_documents] holds. *)
Definition keyed (w : world) : Prop := NoDup (map doc_id (rag_documents w)).

(** What identifies a stored document: everything but its chunk count. *)
Definition doc_key (d : document_row) : Z * pystr * pystr * Z :=
  (doc_id d, doc_filename d, doc_file_hash d, doc_uploaded_by d).

(** From [w] to [w'] rows were only added: the chunk table grew at its
    end, the documents are the old ones (up to their chunk counts)
    followed by new ones, and the usage table is the same. *)
Definition appends_only (w w' : world) : Prop :=
  (exists rows, rag_chunks w' = rag_chunks w ++ rows)
  /\ (exists keys,
        map doc_key (rag_documents w')
        = map doc_key (rag_documents w) ++ keys)
  /\ rag_usage_stats w' = rag_usage_stats w.

(** A coroutine only adds rows, whatever its outcome. *)
Definition monotone {A} (m : M A) : Prop :=
  forall w r w', m w = (r, w') -> appends_only w w'.

(** A coroutine keeps the primary key, on a consistent store. *)
Definition keeps_key {A} (m : M A) : Prop :=
  forall w r w', m w = (r, w') -> consistent w -> keyed w -> keyed w'.

(** A coroutine attempts no connection and sleeps no delay. *)
Definition quiet {A} (m : M A) : Prop :=
  forall w,
    connect_calls (snd (m w)) = connect_calls w
    /\ sleeps_of (trace (snd (m w))) = sleeps_of (trace w).

(** The document row after [UPDATE ... SET total_chunks]. *)
Definition with_total (total : nat) (id : Z) (d : document_row)
  : document_row :=
  if (doc_id d =? id)%Z
  then {| doc_id := doc_id d; doc_filename := doc_filename d;
          doc_file_hash := doc_file_hash d;
          doc_uploaded_by := doc_uploaded_by d;
          doc_total_chunks := total |}
  else d.

(* ===================================================================== *)
(** ** Properties *)
(* ===================================================================== *)

Section Ingestion.
Context (E : Env).

Lemma create_embedding_run (text : pystr) (w : world) :
  exists w',
    EmbeddingService.create_embedding E text w
      = (Ok (embed_outcome E (embed_calls w) text), w')
    /\ rag_documents w' = rag_documents w
    /\ rag_chunks w' = rag_chunks w
    /\ rag_usage_stats w' = rag_usage_stats w
    /\ documents_seq w' = documents_seq w
    /\ embed_calls w' = S (embed_calls w)
    /\ chat_calls w' = chat_calls w.
Proof.
  unfold EmbeddingService.create_embedding, embed_outcome.
  unfold try_except, bind, EmbeddingService.request; cbn.
  destruct (embeddings_create E (embed_calls w) _) as [[|v l]|e]; cbn;
    eexists; repeat split; reflexivity.
Qed.

Lemma add_chunk_run doc i text v md w w' :
  RAGDatabase.add_chunk E doc i text v md w = (Ok tt, w') ->
  rag_chunks w'
    = rag_chunks w ++
        [{| ch_id := chunks_seq w; ch_document_id := doc;
            ch_chunk_index := i; ch_content := text; ch_embedding := v;
            ch_metadata := md |}]
  /\ rag_documents w' = rag_documents w
  /\ documents_seq w' = documents_seq w
  /\ embed_calls w' = embed_calls w.
Proof.
  unfold RAGDatabase.add_chunk, RAGDatabase.execute, bind, get, put, raise;
    cbn.
  destruct (db_accepts E (db_calls w) _); cbn; [|discriminate].
  destruct (existsb _ (rag_documents w)); cbn; [|discriminate].
  intros H; inversion H; subst; cbn. repeat split; reflexivity.
Qed.

Lemma embedded_at_cons k t rest j :
  embedded_at E k (t :: rest) (S j) = embedded_at E (S k) rest j.
Proof.
  unfold embedded_at; cbn. now rewrite Nat.add_succ_r.
Qed.

Lemma filter_map_comm {A B} (f : A -> B) (p : B -> bool) (l : list A) :
  filter p (map f l) = map f (filter (fun x => p (f x)) l).
Proof.
  induction l as [|a l IH]; cbn; [reflexivity|].
  destruct (p (f a)); cbn; now rewrite IH.
Qed.

Lemma embedded_from_shift k i chunks :
  embedded_from E k i chunks
    = map (Nat.add i) (embedded_positions E k chunks).
Proof.
  unfold embedded_positions.
  revert k i; induction chunks as [|t rest IH]; intros k i; cbn [embedded_from].
  - reflexivity.
  - rewrite IH. cbn [length seq]. rewrite <- seq_shift. cbn [filter].
    rewrite filter_map_comm.
    rewrite (filter_ext (fun j => embedded_at E k (t :: rest) (S j))
                        (embedded_at E (S k) rest))
      by (intros j; apply embedded_at_cons).
    unfold embedded_at at 2; cbn [nth_error]. rewrite Nat.add_0_r.
    destruct (is_some (embed_outcome E k t)); cbn [app map];
      rewrite map_map.
    + rewrite Nat.add_0_r. f_equal. apply map_ext; intros; lia.
    + apply map_ext; intros; lia.
Qed.

Lemma embedded_from_positions k chunks :
  embedded_from E k 0 chunks = embedded_positions E k chunks.
Proof.
  rewrite embedded_from_shift. rewrite <- (map_id (embedded_positions _ _ _)) at 2.
  apply map_ext; reflexivity.
Qed.

(** What one run of the chunk loop adds to [rag_chunks]. *)
Lemma save_chunks_rows doc fn uid total :
  forall chunks i p f w p' f' w',
    save_chunks E doc fn uid total i chunks p f w = (Ok (p', f'), w') ->
    exists rows,
      rag_chunks w' = rag_chunks w ++ rows
      /\ map ch_chunk_index rows = embedded_from E (embed_calls w) i chunks
      /\ (forall r, In r rows ->
            ch_document_id r = doc
            /\ md_total_chunks (ch_metadata r) = total
            /\ md_chunk_index (ch_metadata r) = ch_chunk_index r
            /\ exists j, ch_chunk_index r = i + j
                 /\ nth_error chunks j = Some (ch_content r)
                 /\ embed_outcome E (embed_calls w + j) (ch_content r)
                    = Some (ch_embedding r))
      /\ p' = p + length rows
      /\ f' + length rows = f + length chunks
      /\ rag_documents w' = rag_documents w
      /\ documents_seq w' = documents_seq w.
Proof.
  induction chunks as [|t rest IH]; intros i p f w p' f' w' Hrun.
  - cbn in Hrun. inversion Hrun; subst. exists []. cbn.
    rewrite app_nil_r. repeat apply conj; try reflexivity; try lia.
  - cbn [save_chunks] in Hrun. unfold bind at 1 in Hrun.
    destruct (create_embedding_run t w)
      as (w1 & Hemb & Hd1 & Hc1 & _ & Hs1 & He1 & _).
    rewrite Hemb in Hrun. cbn [embedded_from].
    destruct (embed_outcome E (embed_calls w) t) as [v|] eqn:Hout.
    + unfold bind at 1 in Hrun.
      destruct (RAGDatabase.add_chunk E doc i t v _ w1) as [[[]|e] w2] eqn:Hadd;
        [|discriminate].
      apply add_chunk_run in Hadd. destruct Hadd as (Hc2 & Hd2 & Hs2 & He2).
      apply IH in Hrun.
      destruct Hrun as (rows & Hrows & Hidx & Hall & Hp & Hf & Hd & Hs).
      eexists (_ :: rows). repeat apply conj.
      * rewrite Hrows, Hc2, Hc1, <- app_assoc. reflexivity.
      * cbn. rewrite Hidx, He2, He1. reflexivity.
      * intros r [<-|Hin].
        -- cbn. repeat apply conj; try reflexivity.
           exists 0. cbn. rewrite !Nat.add_0_r. auto.
        -- destruct (Hall _ Hin) as (H1 & H2 & H3 & j & Hj & Hn & Ho).
           repeat apply conj; try assumption.
           exists (S j). cbn. rewrite He2, He1 in Ho.
           repeat apply conj; [lia|assumption|].
           now rewrite Nat.add_succ_r.
      * cbn. lia.
      * cbn. lia.
      * now rewrite Hd, Hd2.
      * now rewrite Hs, Hs2.
    + apply IH in Hrun.
      destruct Hrun as (rows & Hrows & Hidx & Hall & Hp & Hf & Hd & Hs).
      exists rows. repeat apply conj.
      * now rewrite Hrows, Hc1.
      * cbn. now rewrite Hidx, He1.
      * intros r Hin.
        destruct (Hall _ Hin) as (H1 & H2 & H3 & j & Hj & Hn & Ho).
        repeat apply conj; try assumption.
        exists (S j). cbn. rewrite He1 in Ho.
        repeat apply conj; [lia|assumption|]. now rewrite Nat.add_succ_r.
      * assumption.
      * cbn. lia.
      * now rewrite Hd.
      * now rewrite Hs.
Qed.

Lemma add_document_run fn h uid w id w' :
  RAGDatabase.add_document E fn h uid w = (Ok id, w') ->
  id = documents_seq w
  /\ rag_documents w'
     = rag_documents w ++
         [{| doc_id := id; doc_filename := fn; doc_file_hash := h;
             doc_uploaded_by := uid; doc_total_chunks := 0 |}]
  /\ rag_chunks w' = rag_chunks w
  /\ documents_seq w' = (id + 1)%Z
  /\ embed_calls w' = embed_calls w
  /\ existsb (fun d => PyStr.eqb (doc_file_hash d) h) (rag_documents w) = false.
Proof.
  unfold RAGDatabase.add_document, RAGDatabase.execute, bind, get, put, raise;
    cbn.
  destruct (db_accepts E (db_calls w) _); cbn; [|discriminate].
  destruct (existsb _ (rag_documents w)); cbn; [discriminate|].
  intros H; inversion H; subst; cbn. repeat apply conj; reflexivity.
Qed.

Lemma update_total_chunks_run total id w w' :
  RAGDatabase.update_total_chunks E total id w = (Ok tt, w') ->
  rag_documents w' = map (with_total total id) (rag_documents w)
  /\ rag_chunks w' = rag_chunks w
  /\ documents_seq w' = documents_seq w.
Proof.
  unfold RAGDatabase.update_total_chunks, RAGDatabase.execute, bind, get, put;
    cbn.
  destruct (db_accepts E (db_calls w) _); cbn; [|discriminate].
  intros H; inversion H; subst; cbn. repeat apply conj; reflexivity.
Qed.

Lemma with_total_other total id ds :
  (forall d, In d ds -> (0 < doc_id d < id)%Z) ->
  map (with_total total id) ds = ds.
Proof.
  intros Hlt. rewrite <- (map_id ds) at 2. apply map_ext_in.
  intros d Hin. unfold with_total.
  destruct (Z.eqb_spec (doc_id d) id) as [Heq|]; [|reflexivity].
  specialize (Hlt _ Hin). lia.
Qed.

Lemma filter_none {A} (p : A -> bool) (l : list A) :
  (forall x, In x l -> p x = false) -> filter p l = [].
Proof.
  induction l as [|a l IH]; cbn; intros H; [reflexivity|].
  rewrite (H a) by now left. apply IH. intros x Hx. apply H. now right.
Qed.

Lemma filter_all {A} (p : A -> bool) (l : list A) :
  (forall x, In x l -> p x = true) -> filter p l = l.
Proof.
  induction l as [|a l IH]; cbn; intros H; [reflexivity|].
  rewrite (H a) by now left. f_equal. apply IH. intros x Hx. apply H. now right.
Qed.

(** A successful [_process_and_save]: the document row it leaves and the
    chunk rows it adds. *)
Lemma process_and_save_ok text fn h uid w doc fn' created len w' :
  consistent w ->
  _process_and_save E text fn h uid w = (Ok (UploadOk doc fn' created len), w') ->
  exists rows,
    doc = documents_seq w
    /\ rag_chunks w' = rag_chunks w ++ rows
    /\ rag_documents w'
       = rag_documents w ++
           [{| doc_id := doc; doc_filename := fn; doc_file_hash := h;
               doc_uploaded_by := uid; doc_total_chunks := length rows |}]
    /\ created = length rows
    /\ map ch_chunk_index rows
       = embedded_positions E (embed_calls w) (split_text E text)
    /\ (forall r, In r rows ->
          ch_document_id r = doc
          /\ md_total_chunks (ch_metadata r) = length (split_text E text)
          /\ md_chunk_index (ch_metadata r) = ch_chunk_index r
          /\ nth_error (split_text E text) (ch_chunk_index r)
             = Some (ch_content r)
          /\ embed_outcome E (embed_calls w + ch_chunk_index r) (ch_content r)
             = Some (ch_embedding r)).
Proof.
  intros (Hpos & Hser & Hfk) Hrun.
  unfold _process_and_save, try_except in Hrun.
  unfold bind at 1 in Hrun. cbn [log_event] in Hrun.
  set (w0 := {| rag_documents := rag_documents w; trace := _ |}) in Hrun.
  destruct (split_text E text) as [|t rest].
  { cbn in Hrun. inversion Hrun. }
  set (chunks := t :: rest) in *.
  unfold bind at 1 in Hrun.
  destruct (RAGDatabase.add_document E fn h uid w0) as [[id|e] w1] eqn:Hadd;
    [|cbn in Hrun; inversion Hrun].
  apply add_document_run in Hadd.
  destruct Hadd as (Hid & Hd1 & Hc1 & Hs1 & He1 & _).
  unfold bind at 1 in Hrun.
  destruct (save_chunks E id fn uid _ 0 _ 0 0 w1) as [[[p f]|e] w2] eqn:Hloop;
    [|cbn in Hrun; inversion Hrun].
  apply save_chunks_rows in Hloop.
  destruct Hloop as (rows & Hc2 & Hidx & Hall & Hp & _ & Hd2 & Hs2).
  unfold bind at 1 in Hrun. cbn [fst] in Hrun.
  destruct (RAGDatabase.update_total_chunks E p id w2) as [[[]|e] w3] eqn:Hupd;
    [|cbn in Hrun; inversion Hrun].
  apply update_total_chunks_run in Hupd. destruct Hupd as (Hd3 & Hc3 & Hs3).
  cbn in Hrun. inversion Hrun; subst doc fn' created len w3. clear Hrun.
  cbn in Hp. subst p.
  exists rows. repeat apply conj.
  - exact Hid.
  - now rewrite Hc3, Hc2, Hc1.
  - rewrite Hd3, Hd2, Hd1, map_app. cbn [map]. f_equal.
    + apply with_total_other. intros d Hin. subst id. now apply Hser.
    + unfold with_total; cbn. now rewrite Z.eqb_refl.
  - reflexivity.
  - rewrite Hidx, He1. apply embedded_from_positions.
  - intros r Hin. destruct (Hall _ Hin) as (H1 & H2 & H3 & j & Hj & Hn & Ho).
    cbn in Hj. rewrite He1 in Ho. subst j.
    repeat apply conj; assumption.
Qed.

Lemma chunks_of_new_document w w' rows :
  consistent w ->
  rag_chunks w' = rag_chunks w ++ rows ->
  (forall r, In r rows -> ch_document_id r = documents_seq w) ->
  chunks_of (documents_seq w) w' = rows.
Proof.
  intros (Hpos & Hser & Hfk) Hc Hall. unfold chunks_of. rewrite Hc, filter_app.
  rewrite filter_none, filter_all; [reflexivity| |].
  - intros r Hin. rewrite (Hall _ Hin). apply Z.eqb_refl.
  - intros c Hin. destruct (Hfk _ Hin) as (d & Hd & Heq).
    apply Z.eqb_neq. specialize (Hser _ Hd). lia.
Qed.

Lemma documents_with_new_id w w' d :
  consistent w ->
  rag_documents w' = rag_documents w ++ [d] ->
  doc_id d = documents_seq w ->
  documents_with_id (documents_seq w) w' = [d].
Proof.
  intros (Hpos & Hser & _) Hd Hid. unfold documents_with_id.
  rewrite Hd, filter_app, filter_none; cbn.
  - now rewrite Hid, Z.eqb_refl.
  - intros x Hin. apply Z.eqb_neq. specialize (Hser _ Hin). lia.
Qed.

Lemma filter_seq_sorted (p : nat -> bool) n a :
  StronglySorted lt (filter p (seq a n)).
Proof.
  revert a; induction n as [|n IH]; intros a; cbn; [constructor|].
  destruct (p a); [|apply IH].
  constructor; [apply IH|].
  apply Forall_forall. intros x Hx. apply filter_In in Hx.
  destruct Hx as [Hx _]. apply in_seq in Hx. lia.
Qed.

Lemma filter_seq_nodup (p : nat -> bool) n a :
  NoDup (filter p (seq a n)).
Proof. apply NoDup_filter, seq_NoDup. Qed.

Lemma filter_partition_length {A} (p : A -> bool) (l : list A) :
  length (filter p l) + length (filter (fun x => negb (p x)) l) = length l.
Proof.
  induction l as [|a l IH]; cbn; [reflexivity|].
  destruct (p a); cbn; lia.
Qed.

(** C1.  When [_process_and_save] completes, the splitter having given
    [chunks] and the embedding having succeeded exactly at the positions
    [embedded_positions], then: the document's [total_chunks] and the
    reported [chunks_created] are the number of those positions; the
    [chunk_index] values of the document's rows, in table order, are
    exactly those positions in source order (so there is no row for a
    skipped position, no index occurs twice and none is out of order);
    and each row holds the chunk the splitter produced at its index. *)
Theorem partial_failure_invariant text fn h uid w doc fn' created len w' :
  consistent w ->
  _process_and_save E text fn h uid w
    = (Ok (UploadOk doc fn' created len), w') ->
  let chunks := split_text E text in
  let S := embedded_positions E (embed_calls w) chunks in
  (exists d, documents_with_id doc w' = [d]
             /\ doc_total_chunks d = length S)
  /\ created = length S
  /\ map ch_chunk_index (chunks_of doc w') = S
  /\ (forall i, embedded_at E (embed_calls w) chunks i = false ->
        forall c, In c (rag_chunks w') ->
                  ch_document_id c = doc -> ch_chunk_index c <> i)
  /\ (forall c, In c (chunks_of doc w') ->
        nth_error chunks (ch_chunk_index c) = Some (ch_content c))
  /\ NoDup (map ch_chunk_index (chunks_of doc w'))
  /\ StronglySorted lt (map ch_chunk_index (chunks_of doc w')).
Proof.
  intros Hcons Hrun chunks S.
  destruct (process_and_save_ok _ _ _ _ _ _ _ _ _ _ Hcons Hrun)
    as (rows & Hdoc & Hc & Hd & Hcreated & Hidx & Hall).
  assert (Hrows : chunks_of doc w' = rows).
  { subst doc. apply chunks_of_new_document; [assumption..|].
    intros r Hin. now apply Hall. }
  assert (Hlen : length rows = length S).
  { unfold S, chunks. rewrite <- Hidx. now rewrite length_map. }
  rewrite Hrows. repeat apply conj.
  - eexists. split.
    + subst doc. apply documents_with_new_id; [assumption|exact Hd|reflexivity].
    + cbn. exact Hlen.
  - now rewrite Hcreated.
  - exact Hidx.
  - intros i Hskip c Hin Hcd Hci.
    assert (Hc' : In c (chunks_of doc w')).
    { unfold chunks_of. apply filter_In. split; [assumption|].
      now apply Z.eqb_eq. }
    rewrite Hrows in Hc'.
    assert (Hi : In i S).
    { unfold S, chunks. rewrite <- Hidx, <- Hci. now apply in_map. }
    unfold S, embedded_positions in Hi. apply filter_In in Hi.
    destruct Hi as [_ Hi]. fold chunks in Hi. congruence.
  - intros c Hin. now apply Hall.
  - rewrite Hidx. apply filter_seq_nodup.
  - rewrite Hidx. apply filter_seq_sorted.
Qed.

(** C9.  When [_process_and_save] completes, every row it stored carries
    in its metadata the number of chunks the splitter produced, while the
    document row carries the number of rows stored; the two differ by the
    number of skipped chunks. *)
Theorem metadata_counts_attempted_chunks text fn h uid w doc fn' created len w' :
  consistent w ->
  _process_and_save E text fn h uid w
    = (Ok (UploadOk doc fn' created len), w') ->
  let chunks := split_text E text in
  (forall c, In c (chunks_of doc w') ->
     md_total_chunks (ch_metadata c) = length chunks)
  /\ (exists d, documents_with_id doc w' = [d]
                /\ doc_total_chunks d = length (chunks_of doc w')
                /\ doc_total_chunks d
                     + length (skipped_positions E (embed_calls w) chunks)
                   = length chunks).
Proof.
  intros Hcons Hrun chunks.
  destruct (process_and_save_ok _ _ _ _ _ _ _ _ _ _ Hcons Hrun)
    as (rows & Hdoc & Hc & Hd & Hcreated & Hidx & Hall).
  assert (Hrows : chunks_of doc w' = rows).
  { subst doc. apply chunks_of_new_document; [assumption..|].
    intros r Hin. now apply Hall. }
  rewrite Hrows. split.
  - intros c Hin. now apply Hall.
  - eexists. repeat apply conj.
    + subst doc. apply documents_with_new_id; [assumption|exact Hd|reflexivity].
    + reflexivity.
    + cbn. rewrite <- (length_map ch_chunk_index rows), Hidx.
      unfold embedded_positions, skipped_positions. fold chunks.
      rewrite filter_partition_length. apply length_seq.
Qed.

(** *** The tables stay consistent *)

Lemma same_tables_consistent w w' :
  same_tables w w' -> consistent w -> consistent w'.
Proof.
  intros (Hd & Hc & _ & Hs) (Hpos & Hser & Hfk). repeat apply conj.
  - now rewrite Hs.
  - intros d. rewrite Hd, Hs. apply Hser.
  - intros c. rewrite Hc, Hd. apply Hfk.
Qed.

Lemma preserves_ret {A} (a : A) : preserves (ret a).
Proof. intros w r w' H Hc. inversion H; now subst. Qed.

Lemma preserves_raise {A} (e : exn) : preserves (@raise A e).
Proof. intros w r w' H Hc. inversion H; now subst. Qed.

Lemma preserves_bind {A B} (m : M A) (k : A -> M B) :
  preserves m -> (forall a, preserves (k a)) -> preserves (bind m k).
Proof.
  intros Hm Hk w r w' H Hc. unfold bind in H.
  destruct (m w) as [[a|e] w1] eqn:Hmw.
  - eapply Hk; [exact H|]. eapply Hm; eauto.
  - inversion H; subst. eapply Hm; eauto.
Qed.

Lemma preserves_try {A} (m : M A) (h : exn -> M A) :
  preserves m -> (forall e, preserves (h e)) -> preserves (try_except m h).
Proof.
  intros Hm Hh w r w' H Hc. unfold try_except in H.
  destruct (m w) as [[a|e] w1] eqn:Hmw.
  - inversion H; subst. eapply Hm; eauto.
  - eapply Hh; [exact H|]. eapply Hm; eauto.
Qed.

Lemma preserves_log_event (e : event) : preserves (log_event e).
Proof.
  intros w r w' H. inversion H; subst.
  apply same_tables_consistent. repeat split.
Qed.

Lemma preserves_execute (s : db_stmt) : preserves (RAGDatabase.execute E s).
Proof.
  intros w r w' H. unfold RAGDatabase.execute in H; cbn in H.
  destruct (db_accepts E (db_calls w) s); inversion H; subst;
    apply same_tables_consistent; repeat split.
Qed.

Lemma select_run h w :
  RAGDatabase.select_document_by_hash E h w
  = ((if db_accepts E (db_calls w) (SelectDocumentByHash h)
      then Ok (stored_id h w) else Raise PostgresError),
     after_db (SelectDocumentByHash h) w).
Proof.
  unfold RAGDatabase.select_document_by_hash, RAGDatabase.execute, bind, get,
    ret, after_db, stored_id; cbn.
  destruct (db_accepts E (db_calls w) _); reflexivity.
Qed.

Lemma after_db_same_tables s w : same_tables w (after_db s w).
Proof. repeat split. Qed.

Lemma preserves_select h :
  preserves (RAGDatabase.select_document_by_hash E h).
Proof.
  intros w r w' H. rewrite select_run in H. inversion H; subst.
  apply same_tables_consistent, after_db_same_tables.
Qed.

Lemma preserves_add_document fn h uid :
  preserves (RAGDatabase.add_document E fn h uid).
Proof.
  intros w r w' H (Hpos & Hser & Hfk).
  unfold RAGDatabase.add_document, RAGDatabase.execute, bind, get, put, raise
    in H; cbn in H.
  destruct (db_accepts E (db_calls w) _); cbn in H.
  - destruct (existsb _ (rag_documents w)); cbn in H; inversion H; subst;
      repeat apply conj; cbn.
    + lia.
    + intros d Hin. specialize (Hser _ Hin). lia.
    + exact Hfk.
    + lia.
    + intros d Hin. apply in_app_or in Hin. destruct Hin as [Hin|[<-|[]]].
      * specialize (Hser _ Hin). lia.
      * cbn. lia.
    + intros c Hin. destruct (Hfk _ Hin) as (d & Hd & Heq).
      exists d. split; [|assumption]. apply in_or_app. now left.
  - inversion H; subst. repeat apply conj; assumption.
Qed.

Lemma preserves_add_chunk doc i text v md :
  preserves (RAGDatabase.add_chunk E doc i text v md).
Proof.
  intros w r w' H (Hpos & Hser & Hfk).
  unfold RAGDatabase.add_chunk, RAGDatabase.execute, bind, get, put, raise
    in H; cbn in H.
  destruct (db_accepts E (db_calls w) _); cbn in H.
  - destruct (existsb _ (rag_documents w)) eqn:Hex; cbn in H;
      inversion H; subst; repeat apply conj; cbn; try assumption.
    intros c Hin. apply in_app_or in Hin. destruct Hin as [Hin|[<-|[]]].
    + now apply Hfk.
    + cbn. apply existsb_exists in Hex. destruct Hex as (d & Hd & Heq).
      exists d. split; [assumption|]. now apply Z.eqb_eq.
  - inversion H; subst. repeat apply conj; assumption.
Qed.

Lemma with_total_id total id d : doc_id (with_total total id d) = doc_id d.
Proof. unfold with_total. now destruct (doc_id d =? id)%Z. Qed.

Lemma preserves_update_total_chunks total id :
  preserves (RAGDatabase.update_total_chunks E total id).
Proof.
  intros w r w' H (Hpos & Hser & Hfk).
  unfold RAGDatabase.update_total_chunks, RAGDatabase.execute, bind, get, put
    in H; cbn in H.
  destruct (db_accepts E (db_calls w) _); cbn in H; inversion H; subst;
    repeat apply conj; cbn; try assumption.
  - intros d Hin. apply in_map_iff in Hin. destruct Hin as (d0 & <- & Hin).
    fold (with_total total id d0). rewrite with_total_id. now apply Hser.
  - intros c Hin. destruct (Hfk _ Hin) as (d & Hd & Heq).
    exists (with_total total id d). split.
    + apply in_map_iff. exists d. split; [reflexivity|assumption].
    + now rewrite with_total_id.
Qed.

Lemma preserves_create_embedding text :
  preserves (EmbeddingService.create_embedding E text).
Proof.
  intros w r w' H.
  destruct (create_embedding_run text w) as (w1 & Hrun & Hd & Hc & Hu & Hs & _).
  rewrite Hrun in H. inversion H; subst.
  apply same_tables_consistent. repeat split; assumption.
Qed.

Lemma preserves_save_chunks doc fn uid total chunks :
  forall i p f, preserves (save_chunks E doc fn uid total i chunks p f).
Proof.
  induction chunks as [|t rest IH]; intros i p f; cbn [save_chunks].
  - apply preserves_ret.
  - apply preserves_bind; [apply preserves_create_embedding|].
    intros [v|]; [|apply IH].
    apply preserves_bind; [apply preserves_add_chunk|]. intros _. apply IH.
Qed.

Lemma preserves_process_and_save text fn h uid :
  preserves (_process_and_save E text fn h uid).
Proof.
  unfold _process_and_save.
  apply preserves_try; [|intros; apply preserves_ret].
  apply preserves_bind; [apply preserves_log_event|]. intros _.
  destruct (split_text E text) as [|t rest]; [apply preserves_ret|].
  apply preserves_bind; [apply preserves_add_document|]. intros doc.
  apply preserves_bind; [apply preserves_save_chunks|]. intros counts.
  apply preserves_bind; [apply preserves_update_total_chunks|]. intros _.
  apply preserves_ret.
Qed.

Lemma preserves_process_text b fn uid : preserves (process_text E b fn uid).
Proof.
  unfold process_text.
  apply preserves_try; [|intros; apply preserves_ret].
  apply preserves_bind; [apply preserves_select|]. intros existing.
  destruct (truthy_id existing); [apply preserves_ret|].
  apply preserves_bind; [apply preserves_log_event|]. intros _.
  destruct (decoded_text b) as [t|]; [|apply preserves_ret].
  destruct (negb (truthy t) || _); [apply preserves_ret|].
  apply preserves_process_and_save.
Qed.

Lemma preserves_process_pdf b fn uid : preserves (process_pdf E b fn uid).
Proof.
  unfold process_pdf, _extract_pdf_text.
  apply preserves_try; [|intros; apply preserves_ret].
  apply preserves_bind; [apply preserves_select|]. intros existing.
  destruct (truthy_id existing); [apply preserves_ret|].
  apply preserves_bind.
  { apply preserves_bind; [apply preserves_log_event|].
    intros _. apply preserves_ret. }
  intros t. destruct (negb (truthy t) || _); [apply preserves_ret|].
  apply preserves_process_and_save.
Qed.

Lemma preserves_process_docx b fn uid : preserves (process_docx E b fn uid).
Proof.
  unfold process_docx, _extract_docx_text.
  apply preserves_try; [|intros; apply preserves_ret].
  apply preserves_bind; [apply preserves_select|]. intros existing.
  destruct (truthy_id existing); [apply preserves_ret|].
  apply preserves_bind.
  { apply preserves_bind; [apply preserves_log_event|].
    intros _. apply preserves_ret. }
  intros t. destruct (negb (truthy t) || _); [apply preserves_ret|].
  apply preserves_process_and_save.
Qed.

Lemma process_file_dispatch b fn uid :
  process_file E b fn uid
  = match kind_of_ext (file_ext E fn) with
    | Some KindPdf => process_pdf E b fn uid
    | Some KindText => process_text E b fn uid
    | Some KindDocx => process_docx E b fn uid
    | None => ret (UploadError (msg_unsupported (file_ext E fn)))
    end.
Proof.
  unfold process_file, kind_of_ext.
  destruct (PyStr.eqb _ (lit "pdf")); [reflexivity|].
  destruct (ext_in _ [lit "txt"; lit "md"; lit "text"]); [reflexivity|].
  destruct (ext_in _ [lit "docx"; lit "doc"]); reflexivity.
Qed.

(** Ingestion keeps the tables consistent, whatever its outcome. *)
Lemma preserves_process_file b fn uid : preserves (process_file E b fn uid).
Proof.
  rewrite process_file_dispatch.
  destruct (kind_of_ext _) as [[| |]|].
  - apply preserves_process_pdf.
  - apply preserves_process_text.
  - apply preserves_process_docx.
  - apply preserves_ret.
Qed.

Lemma has_digest_stored_id h w :
  consistent w -> has_digest h w = true ->
  truthy_id (stored_id h w) = true.
Proof.
  intros (_ & Hser & _). unfold has_digest, stored_id.
  induction (rag_documents w) as [|d ds IH]; cbn; [discriminate|].
  destruct (PyStr.eqb (doc_file_hash d) h); cbn.
  - intros _. assert (0 < doc_id d)%Z by (apply Hser; now left).
    destruct (Z.eqb_spec (doc_id d) 0); [lia|reflexivity].
  - intros Hex. apply IH; [|assumption].
    intros d' Hin. apply Hser. now right.
Qed.

Lemma no_digest_stored_id h w :
  has_digest h w = false -> stored_id h w = None.
Proof.
  unfold has_digest, stored_id.
  induction (rag_documents w) as [|d ds IH]; cbn; [reflexivity|].
  destruct (PyStr.eqb (doc_file_hash d) h); cbn; [discriminate|exact IH].
Qed.

(** C2, as amended.  Take two [process_file] calls with the same bytes,
    the second right after the first.  If the first left a document with
    the digest of these bytes in the store, the second file name has a
    supported extension and the server executes the lookup, then the
    second call answers with the duplicate rejection; it sends that one
    lookup and nothing else (no extraction, no splitting, no embedding
    request), and the tables are as before. *)
Theorem duplicate_upload_rejected b fn1 u1 fn2 u2 w r1 w1 :
  consistent w ->
  process_file E b fn1 u1 w = (r1, w1) ->
  has_digest (md5_hexdigest E b) w1 = true ->
  kind_of_ext (file_ext E fn2) <> None ->
  db_accepts E (db_calls w1) (SelectDocumentByHash (md5_hexdigest E b)) = true ->
  exists w2,
    process_file E b fn2 u2 w1 = (Ok (UploadError msg_duplicate), w2)
    /\ same_tables w1 w2
    /\ embed_calls w2 = embed_calls w1
    /\ trace w2
       = trace w1 ++ [EvDb (SelectDocumentByHash (md5_hexdigest E b))].
Proof.
  intros Hcons Hfirst Hdig Hkind Hacc.
  assert (Hcons1 : consistent w1)
    by (eapply preserves_process_file; eauto).
  pose proof (has_digest_stored_id _ _ Hcons1 Hdig) as Hid.
  exists (after_db (SelectDocumentByHash (md5_hexdigest E b)) w1).
  split; [|repeat split].
  rewrite process_file_dispatch.
  destruct (kind_of_ext (file_ext E fn2)) as [[| |]|]; [| | |congruence];
    unfold process_pdf, process_text, process_docx, try_except, bind;
    rewrite select_run, Hacc, Hid; reflexivity.
Qed.

(** C7, as amended.  For a file with a supported extension whose content
    is not stored yet, when the server executes the lookup: if the
    extracted text, trimmed of leading and trailing white space, is
    shorter than 10 characters, the call answers with the
    empty-or-unreadable rejection of its kind; it has sent the lookup and
    extracted the text and done nothing else (no splitting, no embedding
    request), and the tables are as before. *)
Theorem short_text_rejected b fn uid w k :
  kind_of_ext (file_ext E fn) = Some k ->
  has_digest (md5_hexdigest E b) w = false ->
  db_accepts E (db_calls w) (SelectDocumentByHash (md5_hexdigest E b)) = true ->
  length (strip (extracted_text E k b)) < 10 ->
  exists w',
    process_file E b fn uid w = (Ok (UploadError (msg_unreadable k)), w')
    /\ same_tables w w'
    /\ embed_calls w' = embed_calls w
    /\ trace w'
       = trace w ++ [EvDb (SelectDocumentByHash (md5_hexdigest E b));
                     EvExtract k].
Proof.
  intros Hkind Hdig Hacc Hshort.
  apply no_digest_stored_id in Hdig.
  apply Nat.ltb_lt in Hshort.
  exists (snd (log_event (EvExtract k)
                 (after_db (SelectDocumentByHash (md5_hexdigest E b)) w))).
  split; [|repeat split; cbn; now rewrite <- app_assoc].
  rewrite process_file_dispatch, Hkind.
  destruct k; cbn [extracted_text] in Hshort;
    unfold process_pdf, process_text, process_docx, _extract_pdf_text,
      _extract_docx_text, try_except, bind;
    rewrite select_run, Hacc, Hdig; cbn [truthy_id log_event ret].
  - rewrite Hshort, orb_true_r. reflexivity.
  - destruct (decoded_text b) as [t|]; [|reflexivity].
    rewrite Hshort, orb_true_r. reflexivity.
  - rewrite Hshort, orb_true_r. reflexivity.
Qed.

End Ingestion.

Section Generation.
Context (E : Env).
Import OpenAIAssistant.

Lemma get_response_run a msg uid hist timeout rag w :
  get_response E a msg uid hist timeout rag w
  = (Ok (reply_of (chat_completions_create E (chat_calls w)
                     (build_messages a msg hist rag) timeout)),
     after_chat (build_messages a msg hist rag) w).
Proof.
  unfold get_response, try_except, bind, chat_request, reply_of, after_chat;
    cbn.
  destruct (chat_completions_create E _ _ _) as [resp|e]; cbn.
  - destruct (choices resp) as [|[t|] l]; cbn; try reflexivity.
    destruct (usage_total_tokens resp); reflexivity.
  - destruct e; reflexivity.
Qed.

(** C10.  [get_response] always returns a string and never raises: on
    a timeout of the provider call the fixed waiting message, on any
    other error of it the fixed unavailability message.  The outcome has
    the same shape, [Ok] of a string, in every case. *)
Theorem get_response_total a msg uid hist timeout rag w :
  let outcome :=
    chat_completions_create E (chat_calls w)
      (build_messages a msg hist rag) timeout in
  exists s w',
    get_response E a msg uid hist timeout rag w = (Ok s, w')
    /\ (outcome = Raise TimeoutError -> s = msg_timeout)
    /\ (forall e, outcome = Raise e -> e <> TimeoutError ->
                  s = msg_unavailable)
    /\ chat_calls w' = S (chat_calls w)
    /\ same_tables w w'.
Proof.
  intros outcome.
  exists (reply_of outcome), (after_chat (build_messages a msg hist rag) w).
  split; [apply get_response_run|]. repeat apply conj.
  - intros ->. reflexivity.
  - intros e -> Hne. destruct e; try reflexivity. congruence.
  - reflexivity.
  - reflexivity.
  - reflexivity.
  - reflexivity.
  - reflexivity.
Qed.

End Generation.

Section Retrieval.
Context (E : Env).
Import RAGEngine.

Lemma create_embedding_eq text w :
  EmbeddingService.create_embedding E text w
  = (Ok (embed_outcome E (embed_calls w) text),
     after_embed (OneText (EmbeddingService.truncate_input text)) w).
Proof.
  unfold EmbeddingService.create_embedding, embed_outcome,
    EmbeddingService.truncate_input.
  unfold try_except, bind, EmbeddingService.request, after_embed; cbn.
  destruct (embeddings_create E (embed_calls w) _) as [[|v l]|e]; reflexivity.
Qed.

Lemma search_run v limit w :
  RAGDatabase.search_chunks E v limit w
  = ((if db_accepts E (db_calls w) (SelectNearestChunks v limit)
      then Ok (search_result E v limit w) else Raise PostgresError),
     after_db (SelectNearestChunks v limit) w).
Proof.
  unfold RAGDatabase.search_chunks, RAGDatabase.execute, bind, get, ret,
    after_db, search_result; cbn.
  destruct (db_accepts E (db_calls w) _); reflexivity.
Qed.

Lemma search_result_same_tables v limit w w' :
  same_tables w w' -> search_result E v limit w' = search_result E v limit w.
Proof.
  intros (Hd & Hc & _). unfold search_result, RAGDatabase.joined_rows.
  now rewrite Hd, Hc.
Qed.

Lemma log_usage_run uid q n t w :
  RAGDatabase.log_usage E uid q n t w
  = if db_accepts E (db_calls w) (InsertUsage uid q n t)
    then (Ok tt,
          set_usage
            (rag_usage_stats w ++
               [{| us_id := usage_seq w; us_user_id := uid; us_query := q;
                   us_chunks_used := n; us_response_time_ms := t |}])
            (usage_seq w + 1) (after_db (InsertUsage uid q n t) w))
    else (Raise PostgresError, after_db (InsertUsage uid q n t) w).
Proof.
  unfold RAGDatabase.log_usage, RAGDatabase.execute, bind, get, put, after_db;
    cbn.
  destruct (db_accepts E (db_calls w) _); reflexivity.
Qed.

(** The relevance filter keeps, in order, the chunks at or above the
    threshold. *)
Lemma relevant_chunks_filter found rel :
  relevant_chunks found = Ok rel -> rel = filter above_threshold found.
Proof.
  revert rel; induction found as [|c rest IH]; intros rel; cbn.
  - now intros [= <-].
  - unfold is_relevant, above_threshold.
    destruct (fc_similarity c) as [s|]; [|discriminate].
    destruct (relevant_chunks rest) as [kept|e]; [|discriminate].
    intros [= <-]. rewrite (IH kept eq_refl).
    now destruct (PrimFloat.leb similarity_threshold s).
Qed.

Lemma relevant_chunks_total found :
  (forall c, In c found -> fc_similarity c <> None) ->
  relevant_chunks found = Ok (filter above_threshold found).
Proof.
  induction found as [|c rest IH]; intros Hall; cbn; [reflexivity|].
  unfold is_relevant, above_threshold.
  destruct (fc_similarity c) as [s|] eqn:Hs.
  - rewrite IH by (intros c' Hin; apply Hall; now right).
    now destruct (PrimFloat.leb similarity_threshold s).
  - exfalso. apply (Hall c); [now left|assumption].
Qed.

Lemma in_insert_by_distance x y l :
  In y (RAGDatabase.insert_by_distance x l) -> y = x \/ In y l.
Proof.
  induction l as [|z l IH]; cbn.
  - intros [<-|[]]. now left.
  - destruct (RAGDatabase.distance_le (fst z) (fst x)); cbn.
    + intros [<-|Hin]; [right; now left|].
      destruct (IH Hin); [now left|right; now right].
    + intros [<-|Hin]; [now left|now right].
Qed.

Lemma in_order_by_distance y l :
  In y (RAGDatabase.order_by_distance l) -> In y l.
Proof.
  unfold RAGDatabase.order_by_distance.
  assert (H : forall acc, In y (fold_left
              (fun acc x => RAGDatabase.insert_by_distance x acc) l acc) ->
              In y l \/ In y acc).
  { induction l as [|x l IH]; cbn; intros acc Hin; [now right|].
    destruct (IH _ Hin) as [H|H]; [left; now right|].
    apply in_insert_by_distance in H. destruct H as [->|H];
      [left; now left|now right]. }
  intros Hin. destruct (H [] Hin) as [H'|[]]. exact H'.
Qed.

Lemma in_firstn {A} (x : A) n l : In x (firstn n l) -> In x l.
Proof.
  intros Hin. rewrite <- (firstn_skipn n l). apply in_or_app. now left.
Qed.

Lemma search_result_similarity v limit w c :
  In c (search_result E v limit w) -> fc_similarity c <> None.
Proof.
  unfold search_result. intros Hin. apply in_map_iff in Hin.
  destruct Hin as ([d c'] & Heq & Hin). cbn in Heq. subst c'.
  apply in_firstn, in_order_by_distance in Hin.
  unfold RAGDatabase.joined_rows in Hin. apply in_flat_map in Hin.
  destruct Hin as (row & _ & Hin).
  destruct (find _ (rag_documents w)); [|destruct Hin].
  destruct Hin as [[= _ <-]|[]]. discriminate.
Qed.





(** C3.  When the query embedding succeeds and the search is executed,
    and no chunk it returns has a similarity at or above the threshold
    0.7, [process_query] returns the no-opinion value [None] (it does not
    raise), sends nothing to the generation backend and records nothing:
    after the embedding request and the search, nothing else happens. *)
Theorem below_threshold_abstains a q uid hist w v :
  embed_outcome E (embed_calls w) q = Some v ->
  db_accepts E (db_calls w) (SelectNearestChunks v 4) = true ->
  (forall c s, In c (search_result E v 4 w) -> fc_similarity c = Some s ->
               PrimFloat.leb similarity_threshold s = false) ->
  exists w',
    process_query E a q uid hist w = (Ok None, w')
    /\ chat_calls w' = chat_calls w
    /\ same_tables w w'
    /\ trace w'
       = trace w ++ [EvEmbed (OneText (EmbeddingService.truncate_input q));
                     EvDb (SelectNearestChunks v 4)].
Proof.
  intros Hemb Hacc Hlow.
  exists (after_db (SelectNearestChunks v 4)
            (after_embed (OneText (EmbeddingService.truncate_input q))
               (tick_clock w))).
  split; [|repeat split; cbn; now rewrite <- app_assoc].
  unfold process_query, bind, try_except, datetime_now, of_res.
  rewrite create_embedding_eq. cbn [embed_calls tick_clock].
  rewrite Hemb, search_run. cbn [db_calls after_embed tick_embed tick_clock
    log_event snd]. rewrite Hacc.
  rewrite (search_result_same_tables v 4 w) by (repeat split).
  rewrite relevant_chunks_total by (apply search_result_similarity).
  rewrite filter_none; [reflexivity|].
  intros c Hin. unfold above_threshold.
  destruct (fc_similarity c) as [s|] eqn:Hs; [|reflexivity].
  now apply (Hlow c s).
Qed.

(** C4, as amended.  [process_query] never raises.  It records a usage
    row exactly when it returns a result: the row then holds the user,
    the query text, the number of chunks used (the chunks that passed the
    filter, at least one) and the elapsed time between its two clock
    readings.  When it returns no-opinion, whether for lack of relevant
    chunks or after a caught failure, the usage table is unchanged. *)
Theorem usage_recorded_on_success_only a q uid hist w :
  match process_query E a q uid hist w with
  | (Ok (Some qr), w') =>
    rag_usage_stats w' = rag_usage_stats w ++ [usage_row_of w uid q qr]
    /\ qr_response_time_ms qr
       = elapsed_ms E (now E (clock_reads w)) (now E (S (clock_reads w)))
    /\ qr_chunks_used qr = length (qr_chunks qr)
    /\ 0 < qr_chunks_used qr
  | (Ok None, w') => rag_usage_stats w' = rag_usage_stats w
  | (Raise _, _) => False
  end.
Proof.
  unfold process_query, bind, try_except, datetime_now, of_res.
  rewrite create_embedding_eq. cbn [embed_calls tick_clock].
  destruct (embed_outcome E (embed_calls w) q) as [v|]; [|reflexivity].
  rewrite search_run.
  destruct (db_accepts E _ (SelectNearestChunks v 4)); [|reflexivity].
  destruct (relevant_chunks _) as [[|c rel]|e]; [reflexivity| |reflexivity].
  rewrite get_response_run.
  rewrite log_usage_run.
  destruct (db_accepts E _ (InsertUsage _ _ _ _)); [|reflexivity].
  cbn. repeat apply conj; try reflexivity. lia.
Qed.
























End Retrieval.

Section BatchEmbedding.
Context (E : Env).
Import EmbeddingService.

(** C5, as amended.  [create_embeddings_batch] sends one request for
    the whole list and never raises.  If the request fails, the result
    has the length of the input and holds the failure marker at every
    position.  If it succeeds, the result is the embeddings of the
    provider's answer, in the order of that answer, with no failure
    marker; it has the length of the input when the answer has. *)
Theorem batch_all_or_nothing texts w :
  let request := ManyTexts (map truncate_input texts) in
  exists result,
    create_embeddings_batch E texts w = (Ok result, after_embed request w)
    /\ match embeddings_create E (embed_calls w) request with
       | Ok data =>
         result = map Some data
         /\ (length data = length texts -> length result = length texts)
       | Raise _ =>
         length result = length texts
         /\ forall i, i < length texts -> nth_error result i = Some None
       end.
Proof.
  intros request.
  unfold create_embeddings_batch, try_except, bind, EmbeddingService.request,
    after_embed; cbn. fold request.
  destruct (embeddings_create E (embed_calls w) request) as [data|e]; cbn.
  - eexists. split; [reflexivity|]. split; [reflexivity|].
    intros Hlen. now rewrite length_map.
  - eexists. split; [reflexivity|]. split; [apply repeat_length|].
    intros i Hi. apply nth_error_repeat. exact Hi.
Qed.

End BatchEmbedding.

Section Startup.
Context (E : Env).
Import RagSystem.

Lemma connect_run w :
  connect E w
  = (db_connect E (connect_calls w), snd (log_event EvConnect (tick_connect w))).
Proof. reflexivity. Qed.

(** Failed attempts before a successful one: the loop sleeps the
    doubling delays and returns. *)
Lemma connect_loop_backoff failures :
  forall attempt n w,
    attempt + failures < max_retries ->
    failures < n ->
    (forall j, j < failures ->
       exists e, db_connect E (connect_calls w + j) = Raise e) ->
    db_connect E (connect_calls w + failures) = Ok tt ->
    exists w',
      connect_loop E (seq attempt n) w = (Ok tt, w')
      /\ connect_calls w' = connect_calls w + S failures
      /\ trace w'
         = trace w ++ failed_attempts attempt failures ++ [EvConnect].
Proof.
  induction failures as [|k IH]; intros attempt n w Hlt Hn Hfail Hok.
  - destruct n as [|n]; [lia|]. cbn [seq connect_loop].
    unfold try_except. rewrite connect_run.
    rewrite Nat.add_0_r in Hok. rewrite Hok.
    eexists. split; [reflexivity|]. cbn. split; [lia|reflexivity].
  - destruct n as [|n]; [lia|]. cbn [seq connect_loop].
    unfold try_except. rewrite connect_run.
    destruct (Hfail 0 ltac:(lia)) as (e & He). rewrite Nat.add_0_r in He.
    rewrite He.
    assert (Hlast : (attempt <? max_retries - 1) = true)
      by (apply Nat.ltb_lt; unfold max_retries in *; lia).
    rewrite Hlast. unfold bind at 1, sleep at 1. cbn [log_event].
    set (w2 := Build_world _ _ _ _ _ _ _ _ _ _ _ _).
    destruct (IH (S attempt) n w2) as (w' & Hrun & Hcc & Htr).
    + lia.
    + lia.
    + intros j Hj. destruct (Hfail (S j) ltac:(lia)) as (e' & He').
      exists e'. subst w2; cbn. now rewrite Nat.add_succ_r in He'.
    + subst w2; cbn. now rewrite Nat.add_succ_r in Hok.
    + exists w'. split; [exact Hrun|]. split.
      * rewrite Hcc. subst w2; cbn. lia.
      * rewrite Htr. subst w2; cbn. rewrite <- !app_assoc. reflexivity.
Qed.

(** Five failed attempts: the loop sleeps 2, 4, 8 and 16 seconds and
    re-raises the last error. *)
Lemma connect_loop_exhausted :
  forall n attempt w,
    attempt + S n = max_retries ->
    (forall j, j < S n ->
       exists e, db_connect E (connect_calls w + j) = Raise e) ->
    exists e w',
      connect_loop E (seq attempt (S n)) w = (Raise e, w')
      /\ connect_calls w' = connect_calls w + S n
      /\ trace w' = trace w ++ failed_attempts attempt n ++ [EvConnect].
Proof.
  induction n as [|n IH]; intros attempt w Hsum Hfail.
  - cbn [seq connect_loop]. unfold try_except. rewrite connect_run.
    destruct (Hfail 0 ltac:(lia)) as (e & He). rewrite Nat.add_0_r in He.
    rewrite He.
    assert (Hlast : (attempt <? max_retries - 1) = false)
      by (apply Nat.ltb_ge; unfold max_retries in *; lia).
    rewrite Hlast. exists e. eexists. split; [reflexivity|].
    cbn. split; [lia|reflexivity].
  - cbn [seq connect_loop]. unfold try_except. rewrite connect_run.
    destruct (Hfail 0 ltac:(lia)) as (e & He). rewrite Nat.add_0_r in He.
    rewrite He.
    assert (Hlast : (attempt <? max_retries - 1) = true)
      by (apply Nat.ltb_lt; unfold max_retries in *; lia).
    rewrite Hlast. unfold bind at 1, sleep at 1. cbn [log_event].
    set (w2 := Build_world _ _ _ _ _ _ _ _ _ _ _ _).
    destruct (IH (S attempt) w2) as (e' & w' & Hrun & Hcc & Htr).
    + lia.
    + intros j Hj. destruct (Hfail (S j) ltac:(lia)) as (e' & He').
      exists e'. subst w2; cbn. now rewrite Nat.add_succ_r in He'.
    + exists e', w'. split; [exact Hrun|]. split.
      * rewrite Hcc. subst w2; cbn. lia.
      * rewrite Htr. subst w2; cbn. rewrite <- !app_assoc. reflexivity.
Qed.

(** C6, as amended.  With RAG enabled and a store address configured,
    when all five connection attempts fail: the retry loop sleeps 2, 4,
    8 and 16 seconds between the attempts, makes no sixth attempt and
    raises; [init_rag_system] catches that error and returns [False];
    [main_async] goes on with [rag_initialized = False]. *)
Theorem startup_retry_exhaustion_contained s w :
  RAG_ENABLED s = true ->
  truthy (POSTGRES_PORT_RAG s) = true ->
  (forall j, j < max_retries ->
     exists e, db_connect E (connect_calls w + j) = Raise e) ->
  exists w',
    (exists e, connect_loop E (seq 0 max_retries) w = (Raise e, w'))
    /\ init_rag_system E s w = (Ok false, w')
    /\ (AI_ENABLED s = true -> main_init_rag E s w = (Ok false, w'))
    /\ connect_calls w' = connect_calls w + 5
    /\ sleeps_of (trace w') = sleeps_of (trace w) ++ [2; 4; 8; 16]%Z
    /\ trace w'
       = trace w ++ [EvConnect; EvSleep 2; EvConnect; EvSleep 4; EvConnect;
                     EvSleep 8; EvConnect; EvSleep 16; EvConnect].
Proof.
  intros Hrag Hurl Hfail.
  destruct (connect_loop_exhausted 4 0 w eq_refl Hfail)
    as (e & w' & Hrun & Hcc & Htr).
  assert (Hinit : init_rag_system E s w = (Ok false, w')).
  { unfold init_rag_system, try_except. rewrite Hrag, Hurl. cbn [negb].
    unfold bind at 1. unfold max_retries. rewrite Hrun. reflexivity. }
  exists w'. repeat apply conj.
  - now exists e.
  - exact Hinit.
  - intros Hai. unfold main_init_rag. rewrite Hrag, Hai. cbn [andb].
    unfold try_except at 1. now rewrite Hinit.
  - exact Hcc.
  - rewrite Htr. unfold sleeps_of. rewrite flat_map_app. reflexivity.
  - exact Htr.
Qed.

End Startup.

(* ===================================================================== *)
(** ** Further properties of the code *)
(* ===================================================================== *)

Section IngestionProgress.
Context (E : Env).

(** The floor of the code is narrower than a count of the characters
    that are not white space. *)
Lemma lstrip_non_space_count s :
  non_space_count (lstrip s) = non_space_count s.
Proof.
  unfold non_space_count.
  induction s as [|c s IH]; cbn [lstrip]; [reflexivity|].
  destruct (is_space c) eqn:Hc; [|reflexivity].
  cbn [filter]. rewrite Hc. exact IH.
Qed.

Lemma rev_non_space_count s :
  non_space_count (rev s) = non_space_count s.
Proof.
  unfold non_space_count. now rewrite filter_rev, length_rev.
Qed.

Lemma strip_non_space_count s :
  non_space_count (strip s) = non_space_count s.
Proof.
  unfold strip, rstrip.
  now rewrite rev_non_space_count, lstrip_non_space_count,
    rev_non_space_count, lstrip_non_space_count.
Qed.

Lemma non_space_count_le_trimmed s :
  non_space_count s <= length (strip s).
Proof.
  rewrite <- strip_non_space_count. unfold non_space_count.
  apply filter_length_le.
Qed.

Lemma add_chunk_accepted doc i text v md w :
  db_accepts E (db_calls w) (InsertChunk doc i text v md) = true ->
  existsb (fun d => (doc_id d =? doc)%Z) (rag_documents w) = true ->
  exists w',
    RAGDatabase.add_chunk E doc i text v md w = (Ok tt, w')
    /\ rag_documents w' = rag_documents w.
Proof.
  intros Hacc Hex.
  unfold RAGDatabase.add_chunk, RAGDatabase.execute, bind, get, put; cbn.
  rewrite Hacc; cbn. rewrite Hex; cbn. eexists. split; reflexivity.
Qed.

(** When the server executes every statement, the chunk loop runs to
    its end. *)
Lemma save_chunks_completes doc fn uid total :
  (forall k s, db_accepts E k s = true) ->
  forall chunks i p f w,
    existsb (fun d => (doc_id d =? doc)%Z) (rag_documents w) = true ->
    exists p' f' w',
      save_chunks E doc fn uid total i chunks p f w = (Ok (p', f'), w').
Proof.
  intros Hall. induction chunks as [|t rest IH]; intros i p f w Hex.
  - cbn. now exists p, f, w.
  - cbn [save_chunks]. unfold bind at 1.
    destruct (create_embedding_run E t w) as (w1 & Hemb & Hd1 & _).
    rewrite Hemb.
    destruct (embed_outcome E (embed_calls w) t) as [v|].
    + unfold bind at 1.
      destruct (add_chunk_accepted doc i t v
                  {| md_filename := fn; md_chunk_index := i;
                     md_total_chunks := total; md_uploaded_by := uid |} w1)
        as (w2 & Hadd & Hd2).
      * apply Hall.
      * now rewrite Hd1.
      * rewrite Hadd. apply IH. now rewrite Hd2, Hd1.
    + apply IH. now rewrite Hd1.
Qed.

Lemma add_document_accepted fn h uid w :
  db_accepts E (db_calls w) (InsertDocument fn h uid) = true ->
  has_digest h w = false ->
  exists w',
    RAGDatabase.add_document E fn h uid w = (Ok (documents_seq w), w')
    /\ rag_documents w'
       = rag_documents w ++
           [{| doc_id := documents_seq w; doc_filename := fn;
               doc_file_hash := h; doc_uploaded_by := uid;
               doc_total_chunks := 0 |}].
Proof.
  intros Hacc Hnew. unfold has_digest in Hnew.
  unfold RAGDatabase.add_document, RAGDatabase.execute, bind, get, put; cbn.
  rewrite Hacc; cbn. rewrite Hnew; cbn. eexists. split; reflexivity.
Qed.

Lemma update_total_chunks_accepted total id w :
  db_accepts E (db_calls w) (UpdateTotalChunks total id) = true ->
  exists w', RAGDatabase.update_total_chunks E total id w = (Ok tt, w').
Proof.
  intros Hacc.
  unfold RAGDatabase.update_total_chunks, RAGDatabase.execute, bind, get, put;
    cbn.
  rewrite Hacc; cbn. eexists. reflexivity.
Qed.

(** X21.  When the server executes every statement, a text with a new
    digest that the splitter cuts into at least one chunk is saved,
    whatever the embedding provider does: [_process_and_save] returns
    the success dict, with the file name and the length of the text. *)
Theorem process_and_save_completes text fn h uid w :
  (forall k s, db_accepts E k s = true) ->
  has_digest h w = false ->
  split_text E text <> [] ->
  exists doc created w',
    _process_and_save E text fn h uid w
    = (Ok (UploadOk doc fn created (length text)), w').
Proof.
  intros Hall Hnew Hsplit.
  unfold _process_and_save, try_except. unfold bind at 1. cbn [log_event].
  destruct (split_text E text) as [|t rest]; [congruence|].
  set (chunks := t :: rest).
  set (w0 := Build_world _ _ _ _ _ _ _ _ _ _ _ _).
  destruct (add_document_accepted fn h uid w0 (Hall _ _) Hnew)
    as (w1 & Hadd & Hd1).
  unfold bind at 1. rewrite Hadd.
  destruct (save_chunks_completes (documents_seq w0) fn uid (length chunks)
              Hall chunks 0 0 0 w1) as (p & f & w2 & Hloop).
  { rewrite Hd1, existsb_app. cbn. now rewrite Z.eqb_refl, orb_true_r. }
  unfold bind at 1. rewrite Hloop. cbn [fst].
  destruct (update_total_chunks_accepted p (documents_seq w0) w2 (Hall _ _))
    as (w3 & Hupd).
  unfold bind at 1. rewrite Hupd. cbn.
  eexists. eexists. eexists. reflexivity.
Qed.

Lemma with_total_hash total id d :
  doc_file_hash (with_total total id d) = doc_file_hash d.
Proof. unfold with_total. now destruct (doc_id d =? id)%Z. Qed.

(** A successful [_process_and_save] leaves a document with the digest
    it was given. *)
Lemma process_and_save_stores_digest text fn h uid w r w' :
  _process_and_save E text fn h uid w = (Ok r, w') ->
  success r = true ->
  has_digest h w' = true.
Proof.
  intros Hrun Hok. destruct r as [doc fn' created len|msg]; [|discriminate].
  unfold _process_and_save, try_except in Hrun.
  unfold bind at 1 in Hrun. cbn [log_event] in Hrun.
  destruct (split_text E text) as [|t rest].
  { cbn in Hrun. inversion Hrun. }
  unfold bind at 1 in Hrun.
  destruct (RAGDatabase.add_document E fn h uid _) as [[id|e] w1] eqn:Hadd;
    [|cbn in Hrun; inversion Hrun].
  apply add_document_run in Hadd.
  destruct Hadd as (_ & Hd1 & _).
  unfold bind at 1 in Hrun.
  destruct (save_chunks E id fn uid _ 0 _ 0 0 w1) as [[[p f]|e] w2] eqn:Hloop;
    [|cbn in Hrun; inversion Hrun].
  apply save_chunks_rows in Hloop.
  destruct Hloop as (rows & _ & _ & _ & _ & _ & Hd2 & _).
  unfold bind at 1 in Hrun. cbn [fst] in Hrun.
  destruct (RAGDatabase.update_total_chunks E p id w2) as [[[]|e] w3] eqn:Hupd;
    [|cbn in Hrun; inversion Hrun].
  apply update_total_chunks_run in Hupd. destruct Hupd as (Hd3 & _).
  cbn in Hrun. inversion Hrun; subst. clear Hrun.
  unfold has_digest. rewrite Hd3, Hd2, Hd1.
  apply existsb_exists.
  eexists. split.
  - apply in_map. apply in_or_app. right. left. reflexivity.
  - rewrite with_total_hash. cbn. unfold PyStr.eqb.
    now destruct (list_eq_dec N.eq_dec h h).
Qed.

(** X22.  A successful [process_file] leaves a document row with the
    digest of the bytes it was given, which is what the duplicate check
    of a later upload looks up. *)
Theorem success_stores_digest b fn uid w r w' :
  process_file E b fn uid w = (Ok r, w') ->
  success r = true ->
  has_digest (md5_hexdigest E b) w' = true.
Proof.
  rewrite process_file_dispatch. intros Hrun Hok.
  destruct (kind_of_ext (file_ext E fn)) as [[| |]|].
  - unfold process_pdf, _extract_pdf_text, try_except, bind in Hrun.
    rewrite select_run in Hrun.
    destruct (db_accepts E _ _); [|inversion Hrun; subst; discriminate].
    destruct (truthy_id _); [inversion Hrun; subst; discriminate|].
    cbn [log_event ret] in Hrun.
    destruct (negb _ || _); [inversion Hrun; subst; discriminate|].
    destruct (_process_and_save E _ fn _ uid _) as [[r0|e] w0] eqn:Hsave;
      [|inversion Hrun; subst; discriminate].
    inversion Hrun; subst.
    eapply process_and_save_stores_digest; eauto.
  - unfold process_text, try_except, bind in Hrun.
    rewrite select_run in Hrun.
    destruct (db_accepts E _ _); [|inversion Hrun; subst; discriminate].
    destruct (truthy_id _); [inversion Hrun; subst; discriminate|].
    cbn [log_event] in Hrun.
    destruct (decoded_text b) as [t|];
      [|inversion Hrun; subst; discriminate].
    destruct (negb _ || _); [inversion Hrun; subst; discriminate|].
    destruct (_process_and_save E _ fn _ uid _) as [[r0|e] w0] eqn:Hsave;
      [|inversion Hrun; subst; discriminate].
    inversion Hrun; subst.
    eapply process_and_save_stores_digest; eauto.
  - unfold process_docx, _extract_docx_text, try_except, bind in Hrun.
    rewrite select_run in Hrun.
    destruct (db_accepts E _ _); [|inversion Hrun; subst; discriminate].
    destruct (truthy_id _); [inversion Hrun; subst; discriminate|].
    cbn [log_event ret] in Hrun.
    destruct (negb _ || _); [inversion Hrun; subst; discriminate|].
    destruct (_process_and_save E _ fn _ uid _) as [[r0|e] w0] eqn:Hsave;
      [|inversion Hrun; subst; discriminate].
    inversion Hrun; subst.
    eapply process_and_save_stores_digest; eauto.
  - inversion Hrun; subst. discriminate.
Qed.

End IngestionProgress.

Section IngestionContainment.
Context (E : Env).

Lemma try_except_ret_ok {A} (m : M A) (f : exn -> A) w :
  exists a w', try_except m (fun e => ret (f e)) w = (Ok a, w').
Proof.
  unfold try_except. destruct (m w) as [[a|e] w1].
  - now exists a, w1.
  - now exists (f e), w1.
Qed.

(** X1.  [process_file] never raises: whatever the libraries, the
    provider and the server do, it returns a result dict. *)
Theorem process_file_never_raises b fn uid w :
  exists r w', process_file E b fn uid w = (Ok r, w').
Proof.
  rewrite process_file_dispatch.
  destruct (kind_of_ext (file_ext E fn)) as [[| |]|].
  - apply try_except_ret_ok.
  - apply try_except_ret_ok.
  - apply try_except_ret_ok.
  - eexists. eexists. reflexivity.
Qed.

Lemma appends_only_refl w : appends_only w w.
Proof.
  repeat apply conj.
  - exists []. now rewrite app_nil_r.
  - exists []. now rewrite app_nil_r.
  - reflexivity.
Qed.

Lemma appends_only_trans w1 w2 w3 :
  appends_only w1 w2 -> appends_only w2 w3 -> appends_only w1 w3.
Proof.
  intros ((r1 & Hc1) & (k1 & Hd1) & Hu1) ((r2 & Hc2) & (k2 & Hd2) & Hu2).
  repeat apply conj.
  - exists (r1 ++ r2). now rewrite Hc2, Hc1, app_assoc.
  - exists (k1 ++ k2). now rewrite Hd2, Hd1, app_assoc.
  - now rewrite Hu2.
Qed.

Lemma same_tables_appends_only w w' : same_tables w w' -> appends_only w w'.
Proof.
  intros (Hd & Hc & Hu & _). repeat apply conj.
  - exists []. now rewrite Hc, app_nil_r.
  - exists []. now rewrite Hd, app_nil_r.
  - exact Hu.
Qed.

Lemma monotone_ret {A} (a : A) : monotone (ret a).
Proof. intros w r w' H. inversion H; subst. apply appends_only_refl. Qed.

Lemma monotone_bind {A B} (m : M A) (k : A -> M B) :
  monotone m -> (forall a, monotone (k a)) -> monotone (bind m k).
Proof.
  intros Hm Hk w r w' H. unfold bind in H.
  destruct (m w) as [[a|e] w1] eqn:Hmw.
  - eapply appends_only_trans; [eapply Hm; eauto|eapply Hk; eauto].
  - inversion H; subst. eapply Hm; eauto.
Qed.

Lemma monotone_try {A} (m : M A) (h : exn -> M A) :
  monotone m -> (forall e, monotone (h e)) -> monotone (try_except m h).
Proof.
  intros Hm Hh w r w' H. unfold try_except in H.
  destruct (m w) as [[a|e] w1] eqn:Hmw.
  - inversion H; subst. eapply Hm; eauto.
  - eapply appends_only_trans; [eapply Hm; eauto|eapply Hh; eauto].
Qed.

Lemma monotone_log_event (e : event) : monotone (log_event e).
Proof.
  intros w r w' H. inversion H; subst.
  apply same_tables_appends_only. repeat split.
Qed.

Lemma monotone_select h : monotone (RAGDatabase.select_document_by_hash E h).
Proof.
  intros w r w' H. rewrite select_run in H. inversion H; subst.
  apply same_tables_appends_only, after_db_same_tables.
Qed.

Lemma monotone_add_document fn h uid :
  monotone (RAGDatabase.add_document E fn h uid).
Proof.
  intros w r w' H.
  unfold RAGDatabase.add_document, RAGDatabase.execute, bind, get, put, raise
    in H; cbn in H.
  destruct (db_accepts E (db_calls w) _); cbn in H.
  - destruct (existsb _ (rag_documents w)); cbn in H; inversion H; subst;
      repeat apply conj; cbn.
    + exists []. now rewrite app_nil_r.
    + exists []. now rewrite app_nil_r.
    + reflexivity.
    + exists []. now rewrite app_nil_r.
    + eexists. rewrite map_app. reflexivity.
    + reflexivity.
  - inversion H; subst. apply same_tables_appends_only. repeat split.
Qed.

Lemma monotone_add_chunk doc i text v md :
  monotone (RAGDatabase.add_chunk E doc i text v md).
Proof.
  intros w r w' H.
  unfold RAGDatabase.add_chunk, RAGDatabase.execute, bind, get, put, raise
    in H; cbn in H.
  destruct (db_accepts E (db_calls w) _); cbn in H.
  - destruct (existsb _ (rag_documents w)); cbn in H; inversion H; subst;
      repeat apply conj; cbn.
    + eexists. reflexivity.
    + exists []. now rewrite app_nil_r.
    + reflexivity.
    + exists []. now rewrite app_nil_r.
    + exists []. now rewrite app_nil_r.
    + reflexivity.
  - inversion H; subst. apply same_tables_appends_only. repeat split.
Qed.

Lemma with_total_key total id d : doc_key (with_total total id d) = doc_key d.
Proof. unfold with_total. now destruct (doc_id d =? id)%Z. Qed.

Lemma monotone_update_total_chunks total id :
  monotone (RAGDatabase.update_total_chunks E total id).
Proof.
  intros w r w' H.
  unfold RAGDatabase.update_total_chunks, RAGDatabase.execute, bind, get, put
    in H; cbn in H.
  destruct (db_accepts E (db_calls w) _); cbn in H; inversion H; subst.
  - repeat apply conj; cbn.
    + exists []. now rewrite app_nil_r.
    + exists []. rewrite app_nil_r, map_map. apply map_ext.
      intros d. apply (with_total_key total id d).
    + reflexivity.
  - apply same_tables_appends_only. repeat split.
Qed.

Lemma monotone_create_embedding text :
  monotone (EmbeddingService.create_embedding E text).
Proof.
  intros w r w' H.
  destruct (create_embedding_run E text w) as (w1 & Hrun & Hd & Hc & Hu & Hs & _).
  rewrite Hrun in H. inversion H; subst.
  apply same_tables_appends_only. repeat split; assumption.
Qed.

Lemma monotone_save_chunks doc fn uid total chunks :
  forall i p f, monotone (save_chunks E doc fn uid total i chunks p f).
Proof.
  induction chunks as [|t rest IH]; intros i p f; cbn [save_chunks].
  - apply monotone_ret.
  - apply monotone_bind; [apply monotone_create_embedding|].
    intros [v|]; [|apply IH].
    apply monotone_bind; [apply monotone_add_chunk|]. intros _. apply IH.
Qed.

Lemma monotone_process_and_save text fn h uid :
  monotone (_process_and_save E text fn h uid).
Proof.
  unfold _process_and_save.
  apply monotone_try; [|intros; apply monotone_ret].
  apply monotone_bind; [apply monotone_log_event|]. intros _.
  destruct (split_text E text) as [|t rest]; [apply monotone_ret|].
  apply monotone_bind; [apply monotone_add_document|]. intros doc.
  apply monotone_bind; [apply monotone_save_chunks|]. intros counts.
  apply monotone_bind; [apply monotone_update_total_chunks|]. intros _.
  apply monotone_ret.
Qed.

Lemma monotone_process_file b fn uid : monotone (process_file E b fn uid).
Proof.
  rewrite process_file_dispatch.
  destruct (kind_of_ext _) as [[| |]|].
  - unfold process_pdf, _extract_pdf_text.
    apply monotone_try; [|intros; apply monotone_ret].
    apply monotone_bind; [apply monotone_select|]. intros existing.
    destruct (truthy_id existing); [apply monotone_ret|].
    apply monotone_bind.
    { apply monotone_bind; [apply monotone_log_event|].
      intros _. apply monotone_ret. }
    intros t. destruct (negb (truthy t) || _); [apply monotone_ret|].
    apply monotone_process_and_save.
  - unfold process_text.
    apply monotone_try; [|intros; apply monotone_ret].
    apply monotone_bind; [apply monotone_select|]. intros existing.
    destruct (truthy_id existing); [apply monotone_ret|].
    apply monotone_bind; [apply monotone_log_event|]. intros _.
    destruct (decoded_text b) as [t|]; [|apply monotone_ret].
    destruct (negb (truthy t) || _); [apply monotone_ret|].
    apply monotone_process_and_save.
  - unfold process_docx, _extract_docx_text.
    apply monotone_try; [|intros; apply monotone_ret].
    apply monotone_bind; [apply monotone_select|]. intros existing.
    destruct (truthy_id existing); [apply monotone_ret|].
    apply monotone_bind.
    { apply monotone_bind; [apply monotone_log_event|].
      intros _. apply monotone_ret. }
    intros t. destruct (negb (truthy t) || _); [apply monotone_ret|].
    apply monotone_process_and_save.
  - apply monotone_ret.
Qed.

(** X2.  Whatever its outcome, [process_file] only adds rows: the
    chunk table grows at its end, every stored document keeps its id,
    file name, digest and uploader, at the same place, and the usage
    table is untouched. *)
Theorem process_file_appends_only b fn uid w :
  appends_only w (snd (process_file E b fn uid w)).
Proof.
  eapply monotone_process_file. apply surjective_pairing.
Qed.

Lemma same_tables_keyed w w' : same_tables w w' -> keyed w -> keyed w'.
Proof. intros (Hd & _). unfold keyed. now rewrite Hd. Qed.

Lemma keeps_key_ret {A} (a : A) : keeps_key (ret a).
Proof. intros w r w' H _ Hk. inversion H; now subst. Qed.

Lemma keeps_key_bind {A B} (m : M A) (k : A -> M B) :
  preserves m -> keeps_key m -> (forall a, keeps_key (k a)) ->
  keeps_key (bind m k).
Proof.
  intros Hp Hm Hk w r w' H Hc Hkey. unfold bind in H.
  destruct (m w) as [[a|e] w1] eqn:Hmw.
  - eapply Hk; [exact H| |]; [eapply Hp|eapply Hm]; eauto.
  - inversion H; subst. eapply Hm; eauto.
Qed.

Lemma keeps_key_try {A} (m : M A) (h : exn -> M A) :
  preserves m -> keeps_key m -> (forall e, keeps_key (h e)) ->
  keeps_key (try_except m h).
Proof.
  intros Hp Hm Hh w r w' H Hc Hkey. unfold try_except in H.
  destruct (m w) as [[a|e] w1] eqn:Hmw.
  - inversion H; subst. eapply Hm; eauto.
  - eapply Hh; [exact H| |]; [eapply Hp|eapply Hm]; eauto.
Qed.

Lemma keeps_key_same_tables {A} (m : M A) :
  (forall w r w', m w = (r, w') -> same_tables w w') -> keeps_key m.
Proof.
  intros Hsame w r w' H _ Hk. eapply same_tables_keyed; eauto.
Qed.

Lemma keeps_key_log_event e : keeps_key (log_event e).
Proof.
  apply keeps_key_same_tables. intros w r w' H. inversion H; subst.
  repeat split.
Qed.

Lemma keeps_key_select h :
  keeps_key (RAGDatabase.select_document_by_hash E h).
Proof.
  apply keeps_key_same_tables. intros w r w' H. rewrite select_run in H.
  inversion H; subst. apply after_db_same_tables.
Qed.

Lemma keeps_key_create_embedding text :
  keeps_key (EmbeddingService.create_embedding E text).
Proof.
  apply keeps_key_same_tables. intros w r w' H.
  destruct (create_embedding_run E text w) as (w1 & Hrun & Hd & Hc & Hu & Hs & _).
  rewrite Hrun in H. inversion H; subst. repeat split; assumption.
Qed.

Lemma keeps_key_add_document fn h uid :
  keeps_key (RAGDatabase.add_document E fn h uid).
Proof.
  intros w r w' H (Hpos & Hser & _) Hkey. unfold keyed in *.
  unfold RAGDatabase.add_document, RAGDatabase.execute, bind, get, put, raise
    in H; cbn in H.
  destruct (db_accepts E (db_calls w) _); cbn in H.
  - destruct (existsb _ (rag_documents w)); cbn in H; inversion H; subst;
      cbn; [exact Hkey|].
    rewrite map_app. cbn. apply NoDup_app; [exact Hkey| |].
    + constructor; [intros []|constructor].
    + intros x Hin [<-|[]]. apply in_map_iff in Hin.
      destruct Hin as (d & Heq & Hin). specialize (Hser d Hin). lia.
  - inversion H; subst. exact Hkey.
Qed.

Lemma keeps_key_add_chunk doc i text v md :
  keeps_key (RAGDatabase.add_chunk E doc i text v md).
Proof.
  intros w r w' H _ Hkey. unfold keyed in *.
  unfold RAGDatabase.add_chunk, RAGDatabase.execute, bind, get, put, raise
    in H; cbn in H.
  destruct (db_accepts E (db_calls w) _); cbn in H.
  - destruct (existsb _ (rag_documents w)); cbn in H; inversion H; subst;
      exact Hkey.
  - inversion H; subst. exact Hkey.
Qed.

Lemma keeps_key_update_total_chunks total id :
  keeps_key (RAGDatabase.update_total_chunks E total id).
Proof.
  intros w r w' H _ Hkey. unfold keyed in *.
  unfold RAGDatabase.update_total_chunks, RAGDatabase.execute, bind, get, put
    in H; cbn in H.
  destruct (db_accepts E (db_calls w) _); cbn in H; inversion H; subst; cbn.
  - rewrite map_map.
    rewrite (map_ext _ doc_id); [exact Hkey|].
    intros d. apply (with_total_id total id d).
  - exact Hkey.
Qed.

Lemma keeps_key_save_chunks doc fn uid total chunks :
  forall i p f, keeps_key (save_chunks E doc fn uid total i chunks p f).
Proof.
  induction chunks as [|t rest IH]; intros i p f; cbn [save_chunks].
  - apply keeps_key_ret.
  - apply keeps_key_bind;
      [apply preserves_create_embedding|apply keeps_key_create_embedding|].
    intros [v|]; [|apply IH].
    apply keeps_key_bind;
      [apply preserves_add_chunk|apply keeps_key_add_chunk|].
    intros _. apply IH.
Qed.

Lemma keeps_key_process_and_save text fn h uid :
  keeps_key (_process_and_save E text fn h uid).
Proof.
  unfold _process_and_save.
  apply keeps_key_try; [| |intros; apply keeps_key_ret].
  - apply preserves_bind; [apply preserves_log_event|]. intros _.
    destruct (split_text E text) as [|t rest]; [apply preserves_ret|].
    apply preserves_bind; [apply preserves_add_document|]. intros doc.
    apply preserves_bind; [apply preserves_save_chunks|]. intros counts.
    apply preserves_bind; [apply preserves_update_total_chunks|]. intros _.
    apply preserves_ret.
  - apply keeps_key_bind;
      [apply preserves_log_event|apply keeps_key_log_event|]. intros _.
    destruct (split_text E text) as [|t rest]; [apply keeps_key_ret|].
    apply keeps_key_bind;
      [apply preserves_add_document|apply keeps_key_add_document|].
    intros doc.
    apply keeps_key_bind;
      [apply preserves_save_chunks|apply keeps_key_save_chunks|].
    intros counts.
    apply keeps_key_bind;
      [apply preserves_update_total_chunks
      |apply keeps_key_update_total_chunks|].
    intros _. apply keeps_key_ret.
Qed.

Lemma keeps_key_process_file b fn uid : keeps_key (process_file E b fn uid).
Proof.
  intros w r w' Hrun Hcons Hkey.
  rewrite process_file_dispatch in Hrun.
  destruct (kind_of_ext _) as [[| |]|].
  - unfold process_pdf, _extract_pdf_text, try_except, bind in Hrun.
    rewrite select_run in Hrun.
    assert (Hk0 : keyed (after_db (SelectDocumentByHash (md5_hexdigest E b)) w))
      by exact Hkey.
    assert (Hc0 : consistent
                    (after_db (SelectDocumentByHash (md5_hexdigest E b)) w))
      by (eapply same_tables_consistent;
          [apply after_db_same_tables|exact Hcons]).
    destruct (db_accepts E _ _); [|inversion Hrun; subst; exact Hk0].
    destruct (truthy_id _); [inversion Hrun; subst; exact Hk0|].
    cbn [log_event ret] in Hrun.
    destruct (negb _ || _); [inversion Hrun; subst; exact Hk0|].
    destruct (_process_and_save E _ fn _ uid _) as [[r0|e] w0] eqn:Hsave;
      inversion Hrun; subst;
      (eapply keeps_key_process_and_save; [exact Hsave| |]);
      [eapply same_tables_consistent; [|exact Hc0]; repeat split
      |exact Hk0
      |eapply same_tables_consistent; [|exact Hc0]; repeat split
      |exact Hk0].
  - unfold process_text, try_except, bind in Hrun.
    rewrite select_run in Hrun.
    assert (Hk0 : keyed (after_db (SelectDocumentByHash (md5_hexdigest E b)) w))
      by exact Hkey.
    assert (Hc0 : consistent
                    (after_db (SelectDocumentByHash (md5_hexdigest E b)) w))
      by (eapply same_tables_consistent;
          [apply after_db_same_tables|exact Hcons]).
    destruct (db_accepts E _ _); [|inversion Hrun; subst; exact Hk0].
    destruct (truthy_id _); [inversion Hrun; subst; exact Hk0|].
    cbn [log_event] in Hrun.
    destruct (decoded_text b) as [t|]; [|inversion Hrun; subst; exact Hk0].
    destruct (negb _ || _); [inversion Hrun; subst; exact Hk0|].
    destruct (_process_and_save E _ fn _ uid _) as [[r0|e] w0] eqn:Hsave;
      inversion Hrun; subst;
      (eapply keeps_key_process_and_save; [exact Hsave| |]);
      [eapply same_tables_consistent; [|exact Hc0]; repeat split
      |exact Hk0
      |eapply same_tables_consistent; [|exact Hc0]; repeat split
      |exact Hk0].
  - unfold process_docx, _extract_docx_text, try_except, bind in Hrun.
    rewrite select_run in Hrun.
    assert (Hk0 : keyed (after_db (SelectDocumentByHash (md5_hexdigest E b)) w))
      by exact Hkey.
    assert (Hc0 : consistent
                    (after_db (SelectDocumentByHash (md5_hexdigest E b)) w))
      by (eapply same_tables_consistent;
          [apply after_db_same_tables|exact Hcons]).
    destruct (db_accepts E _ _); [|inversion Hrun; subst; exact Hk0].
    destruct (truthy_id _); [inversion Hrun; subst; exact Hk0|].
    cbn [log_event ret] in Hrun.
    destruct (negb _ || _); [inversion Hrun; subst; exact Hk0|].
    destruct (_process_and_save E _ fn _ uid _) as [[r0|e] w0] eqn:Hsave;
      inversion Hrun; subst;
      (eapply keeps_key_process_and_save; [exact Hsave| |]);
      [eapply same_tables_consistent; [|exact Hc0]; repeat split
      |exact Hk0
      |eapply same_tables_consistent; [|exact Hc0]; repeat split
      |exact Hk0].
  - inversion Hrun; subst. exact Hkey.
Qed.

(** X3.  Whatever its outcome, [process_file] keeps the store sound:
    document ids stay positive, below the sequence and pairwise
    different, and every chunk references a stored document. *)
Theorem process_file_keeps_store_sound b fn uid w :
  consistent w -> keyed w ->
  consistent (snd (process_file E b fn uid w))
  /\ keyed (snd (process_file E b fn uid w)).
Proof.
  intros Hcons Hkey. split.
  - eapply preserves_process_file; [|exact Hcons]. apply surjective_pairing.
  - eapply keeps_key_process_file; [|exact Hcons|exact Hkey].
    apply surjective_pairing.
Qed.

(** X4.  A file whose extension is none of pdf, txt, md, text, docx,
    doc is answered with the unsupported-format message naming the
    extension, and nothing at all happens: no statement, no request, no
    event. *)
Theorem unsupported_extension_rejected b fn uid w :
  kind_of_ext (file_ext E fn) = None ->
  process_file E b fn uid w
  = (Ok (UploadError (msg_unsupported (file_ext E fn))), w).
Proof.
  intros Hkind. now rewrite process_file_dispatch, Hkind.
Qed.

End IngestionContainment.

Section TextExtraction.
Context (E : Env).

Lemma replace_single c s :
  replace [c] [] s = filter (fun x => negb (c =? x)%N) s.
Proof.
  unfold replace. induction s as [|x r IH]; [reflexivity|].
  cbn [replace_go starts_with filter length Nat.sub].
  destruct (c =? x)%N; cbn [andb negb app].
  - destruct r; exact IH.
  - destruct r; now rewrite IH.
Qed.

Lemma replace_nul_no_nul s : ~ In 0%N (replace nul [] s).
Proof.
  unfold nul. rewrite replace_single. intros Hin.
  apply filter_In in Hin. destruct Hin as [_ Hin]. discriminate Hin.
Qed.

(** X5.  Whatever the kind of file, the extracted text holds no null
    character. *)
Theorem extracted_text_has_no_nul k b : ~ In 0%N (extracted_text E k b).
Proof.
  destruct k; cbn [extracted_text].
  - unfold pdf_text. destruct (pdf_reader E b) as [pages|e]; [|intros []].
    destruct (pdf_text_parts pages []) as [parts|e]; [|intros []].
    apply replace_nul_no_nul.
  - unfold decoded_text.
    destruct (decode_first encodings b) as [t|]; [|intros []].
    destruct t as [|c t]; cbn [truthy]; [intros []|].
    apply replace_nul_no_nul.
  - unfold docx_text. destruct (docx_document E b) as [d|e]; [|intros []].
    apply replace_nul_no_nul.
Qed.

(** X6.  The codec loop of [process_text] always ends with a text:
    bytes that are neither UTF-8 nor code page 1251 are read as Latin-1,
    one character per byte, without the null characters. *)
Theorem text_files_always_decode b :
  exists t, decoded_text b = Some t
            /\ (decode_utf8 b = None -> decode_cp1251 b = None ->
                t = replace nul [] (map Byte.to_N b)).
Proof.
  unfold decoded_text, encodings. cbn [decode_first].
  destruct (decode_utf8 b) as [t|] eqn:Hu.
  - destruct (truthy t); eexists; (split; [reflexivity|discriminate]).
  - destruct (decode_cp1251 b) as [t|] eqn:Hc.
    + destruct (truthy t); eexists; (split; [reflexivity|discriminate]).
    + unfold decode_latin1. destruct b as [|x b]; [discriminate Hu|].
      cbn [map truthy]. eexists. split; [reflexivity|]. reflexivity.
Qed.

(** X7.  The minimum-content floor rejects only texts with fewer than
    10 characters that are not white space: trimming removes white
    space only, so the trimmed length bounds that count. *)
Theorem floor_rejects_only_sparse_texts s :
  length (strip s) < 10 -> non_space_count s < 10.
Proof.
  intros Hshort. pose proof (non_space_count_le_trimmed s). lia.
Qed.

End TextExtraction.

Section EmbeddingRequests.
Context (E : Env).
Import EmbeddingService.

Lemma truncate_input_firstn t : truncate_input t = firstn char_cap t.
Proof.
  unfold truncate_input. destruct (char_cap <? length t) eqn:Hlen.
  - reflexivity.
  - apply Nat.ltb_ge in Hlen. now rewrite firstn_all2.
Qed.

(** X8.  [create_embedding] never raises and sends exactly one
    request, for the first 8000 characters of the text; the batch form
    sends one request with each text cut the same way. *)
Theorem embedding_requests_are_capped text texts w :
  (exists w',
     create_embedding E text w = (Ok (embed_outcome E (embed_calls w) text), w')
     /\ trace w' = trace w ++ [EvEmbed (OneText (firstn char_cap text))]
     /\ embed_calls w' = S (embed_calls w))
  /\ trace (snd (create_embeddings_batch E texts w))
     = trace w ++ [EvEmbed (ManyTexts (map (firstn char_cap) texts))]
  /\ length (firstn char_cap text) <= char_cap.
Proof.
  repeat apply conj.
  - rewrite create_embedding_eq, truncate_input_firstn.
    eexists. split; [reflexivity|]. split; reflexivity.
  - unfold create_embeddings_batch, try_except, bind, request.
    rewrite (map_ext _ _ truncate_input_firstn).
    cbn [log_event]. destruct (embeddings_create E _ _); reflexivity.
  - apply firstn_le_length.
Qed.

End EmbeddingRequests.

Section Search.
Context (E : Env).
Import RAGEngine.

Lemma order_by_distance_length l :
  length (RAGDatabase.order_by_distance l) = length l.
Proof.
  unfold RAGDatabase.order_by_distance.
  assert (Hins : forall x acc,
             length (RAGDatabase.insert_by_distance x acc) = S (length acc)).
  { intros x acc. induction acc as [|y r IH]; cbn; [reflexivity|].
    destruct (RAGDatabase.distance_le (fst y) (fst x)); cbn; [|reflexivity].
    now rewrite IH. }
  assert (H : forall acc,
             length (fold_left
                       (fun acc x => RAGDatabase.insert_by_distance x acc)
                       l acc)
             = length l + length acc).
  { induction l as [|x r IH]; intros acc; cbn; [reflexivity|].
    rewrite IH, Hins. lia. }
  rewrite H. cbn. lia.
Qed.

Lemma joined_rows_length v w :
  length (RAGDatabase.joined_rows E v w) <= length (rag_chunks w).
Proof.
  unfold RAGDatabase.joined_rows.
  induction (rag_chunks w) as [|c r IH]; cbn; [lia|].
  rewrite length_app.
  destruct (find _ (rag_documents w)); cbn; lia.
Qed.

(** X9.  A search returns at most [limit] dicts and at most one per
    stored chunk.  Each dict is built from a stored chunk and the stored
    document that chunk references: it carries the chunk's id, content
    and metadata, the document's file name, and as similarity 1 minus
    the cosine distance between the chunk's embedding and the query. *)
Theorem search_returns_stored_chunks v limit w :
  length (search_result E v limit w) <= limit
  /\ length (search_result E v limit w) <= length (rag_chunks w)
  /\ forall c, In c (search_result E v limit w) ->
       exists row d,
         In row (rag_chunks w) /\ In d (rag_documents w)
         /\ doc_id d = ch_document_id row
         /\ fc_id c = ch_id row
         /\ fc_content c = ch_content row
         /\ fc_metadata c = ch_metadata row
         /\ fc_filename c = Some (doc_filename d)
         /\ fc_similarity c
            = Some (PrimFloat.sub 1
                      (cosine_distance E (ch_embedding row) v)).
Proof.
  unfold search_result. repeat apply conj.
  - rewrite length_map. apply firstn_le_length.
  - rewrite length_map, length_firstn, order_by_distance_length.
    pose proof (joined_rows_length v w). lia.
  - intros c Hin. apply in_map_iff in Hin.
    destruct Hin as ([dist c'] & Heq & Hin). cbn in Heq. subst c'.
    apply in_firstn, in_order_by_distance in Hin.
    unfold RAGDatabase.joined_rows in Hin. apply in_flat_map in Hin.
    destruct Hin as (row & Hrow & Hin).
    destruct (find _ (rag_documents w)) as [d|] eqn:Hfind; [|destruct Hin].
    destruct Hin as [[= <- <-]|[]].
    apply find_some in Hfind. destruct Hfind as [Hd Hid].
    apply Z.eqb_eq in Hid.
    exists row, d. repeat apply conj; try reflexivity; assumption.
Qed.

(** X10.  On a store without chunks [process_query] returns
    no-opinion for every query: it never calls the generation backend
    and writes no usage row. *)
Theorem empty_store_abstains a q uid hist w :
  rag_chunks w = [] ->
  exists w',
    process_query E a q uid hist w = (Ok None, w')
    /\ chat_calls w' = chat_calls w
    /\ same_tables w w'.
Proof.
  intros Hempty.
  unfold process_query, bind, try_except, datetime_now, of_res.
  rewrite create_embedding_eq. cbn [embed_calls tick_clock].
  destruct (embed_outcome E (embed_calls w) q) as [v|].
  - rewrite search_run.
    destruct (db_accepts E _ (SelectNearestChunks v 4)).
    + rewrite (search_result_same_tables E v 4 w) by (repeat split).
      unfold search_result, RAGDatabase.joined_rows. rewrite Hempty.
      cbn. eexists. split; [reflexivity|]. repeat split.
    + eexists. split; [reflexivity|]. repeat split.
  - eexists. split; [reflexivity|]. repeat split.
Qed.

End Search.

Section Deletion.
Context (E : Env).

Lemma contains_delete_1 n :
  n <= 1 ->
  contains (lit "DELETE 1") (RAGDatabase.delete_status n) = (n =? 1).
Proof.
  intros Hn. destruct n as [|[|n]]; [vm_compute; reflexivity..|lia].
Qed.

Lemma keyed_at_most_one id ds :
  NoDup (map doc_id ds) ->
  length (filter (fun d => (doc_id d =? id)%Z) ds) <= 1.
Proof.
  induction ds as [|d ds IH]; cbn; intros Hnd; [lia|].
  inversion Hnd as [|x l Hnotin Hnd']; subst.
  destruct (Z.eqb_spec (doc_id d) id) as [Heq|Hne]; cbn.
  - rewrite filter_none; [cbn; lia|].
    intros d' Hin. apply Z.eqb_neq. intros Heq'. apply Hnotin.
    rewrite Heq, <- Heq'. now apply in_map.
  - now apply IH.
Qed.

Lemma keyed_count_exists id ds :
  NoDup (map doc_id ds) ->
  (length (filter (fun d => (doc_id d =? id)%Z) ds) =? 1)
  = existsb (fun d => (doc_id d =? id)%Z) ds.
Proof.
  induction ds as [|d ds IH]; cbn [map]; intros Hnd; [reflexivity|].
  inversion Hnd as [|x l Hnotin Hnd']; subst.
  cbn [filter existsb].
  destruct (Z.eqb_spec (doc_id d) id) as [Heq|Hne]; cbn [length orb].
  - rewrite filter_none; [reflexivity|].
    intros d' Hin. apply Z.eqb_neq. intros Heq'. apply Hnotin.
    rewrite Heq, <- Heq'. now apply in_map.
  - now apply IH.
Qed.

Lemma keyed_filter (p : document_row -> bool) ds :
  NoDup (map doc_id ds) -> NoDup (map doc_id (filter p ds)).
Proof.
  induction ds as [|d ds IH]; cbn [map]; intros Hnd; [constructor|].
  inversion Hnd as [|x l Hnotin Hnd']; subst.
  cbn [filter]. destruct (p d); [|now apply IH].
  cbn [map]. constructor; [|now apply IH].
  intros Hin. apply Hnotin. apply in_map_iff in Hin.
  destruct Hin as (d' & Heq & Hin). apply filter_In in Hin.
  rewrite <- Heq. apply in_map. tauto.
Qed.

(** X11.  An executed [delete_document] removes the documents with
    the id and every chunk that references it, and leaves all other
    rows as they are and in their order.  Under the primary key it
    returns [True] exactly when a document with the id was stored.  The
    store stays referentially consistent. *)
Theorem delete_document_cascades id w :
  let w' := snd (RAGDatabase.delete_document true id w) in
  rag_documents w'
  = filter (fun d => negb (doc_id d =? id)%Z) (rag_documents w)
  /\ rag_chunks w'
     = filter (fun c => negb (ch_document_id c =? id)%Z) (rag_chunks w)
  /\ (forall d, In d (rag_documents w') -> doc_id d <> id)
  /\ (forall c, In c (rag_chunks w') -> ch_document_id c <> id)
  /\ rag_usage_stats w' = rag_usage_stats w
  /\ (keyed w ->
      fst (RAGDatabase.delete_document true id w)
      = Ok (existsb (fun d => (doc_id d =? id)%Z) (rag_documents w)))
  /\ (consistent w -> consistent w')
  /\ (keyed w -> keyed w').
Proof.
  cbn. repeat apply conj; try reflexivity.
  - intros d Hin. apply filter_In in Hin. destruct Hin as [_ Hne].
    apply negb_true_iff, Z.eqb_neq in Hne. exact Hne.
  - intros c Hin. apply filter_In in Hin. destruct Hin as [_ Hne].
    apply negb_true_iff, Z.eqb_neq in Hne. exact Hne.
  - intros Hkey. f_equal.
    rewrite contains_delete_1 by (now apply keyed_at_most_one).
    now apply keyed_count_exists.
  - intros (Hpos & Hser & Hfk). repeat apply conj.
    + exact Hpos.
    + intros d Hin. apply filter_In in Hin. now apply Hser.
    + intros c Hin. apply filter_In in Hin. destruct Hin as [Hin Hne].
      destruct (Hfk c Hin) as (d & Hd & Heq).
      exists d. split; [|exact Heq].
      apply filter_In. split; [exact Hd|]. now rewrite Heq.
  - unfold keyed. cbn. apply keyed_filter.
Qed.

(** X12.  After an executed [delete_document], no search returns a
    chunk of the deleted document: every dict returned comes from a
    chunk that was stored before and references another document. *)
Theorem search_after_delete id v limit w :
  let w' := snd (RAGDatabase.delete_document true id w) in
  forall c, In c (search_result E v limit w') ->
    exists row,
      In row (rag_chunks w)
      /\ ch_document_id row <> id
      /\ fc_id c = ch_id row
      /\ fc_content c = ch_content row.
Proof.
  cbn. intros c Hin. unfold search_result in Hin. apply in_map_iff in Hin.
  destruct Hin as ([dist c'] & Heq & Hin). cbn in Heq. subst c'.
  apply in_firstn, in_order_by_distance in Hin.
  unfold RAGDatabase.joined_rows in Hin. apply in_flat_map in Hin.
  destruct Hin as (row & Hrow & Hin).
  cbn in Hrow. apply filter_In in Hrow. destruct Hrow as [Hrow Hne].
  apply negb_true_iff, Z.eqb_neq in Hne.
  destruct (find _ _) as [d|]; [|destruct Hin].
  destruct Hin as [[= <- <-]|[]].
  exists row. repeat apply conj; try reflexivity; assumption.
Qed.

(** X13.  The uploader's [delete_document] never raises: when the
    server refuses the statement it returns [False] and no row is
    changed. *)
Theorem uploader_delete_contained accepted id w :
  exists b w',
    DocumentUploader.delete_document accepted id w = (Ok b, w')
    /\ (accepted = false -> b = false /\ same_tables w w').
Proof.
  unfold DocumentUploader.delete_document, try_except,
    RAGDatabase.delete_document.
  destruct accepted.
  - eexists. eexists. split; [reflexivity|discriminate].
  - eexists. eexists. split; [reflexivity|]. intros _. split; [reflexivity|].
    repeat split.
Qed.

End Deletion.

Section AugmentedAnswer.
Context (E : Env).
Import RAGEngine OpenAIAssistant.

(** X14.  When the query embedding succeeds, the search is executed,
    at least one chunk passes the filter and the usage insert is
    executed, [process_query] returns the augmented result: between one
    and four chunks used, namely the search result filtered in its
    order; one generation request, made with the RAG system prompt and
    the prompt built from the context block and the query; the reply
    cleaned of tags; and one usage row. *)
Theorem augmented_answer a q uid hist w v :
  let relevant := filter above_threshold (search_result E v 4 w) in
  let prompt := _build_prompt q (_build_context E relevant) in
  let messages := build_messages a prompt hist true in
  let elapsed :=
    elapsed_ms E (now E (clock_reads w)) (now E (S (clock_reads w))) in
  embed_outcome E (embed_calls w) q = Some v ->
  db_accepts E (db_calls w) (SelectNearestChunks v 4) = true ->
  relevant <> [] ->
  db_accepts E (S (db_calls w)) (InsertUsage uid q (length relevant) elapsed)
  = true ->
  exists w',
    process_query E a q uid hist w
    = (Ok (Some {| qr_success := true;
                   qr_response :=
                     _clean_response
                       (reply_of (chat_completions_create E (chat_calls w)
                                    messages 15));
                   qr_rag_used := true;
                   qr_chunks_used := length relevant;
                   qr_response_time_ms := elapsed;
                   qr_chunks := relevant |}), w')
    /\ 1 <= length relevant <= 4
    /\ chat_calls w' = S (chat_calls w)
    /\ trace w'
       = trace w ++ [EvEmbed (OneText (EmbeddingService.truncate_input q));
                     EvDb (SelectNearestChunks v 4);
                     EvChat messages;
                     EvDb (InsertUsage uid q (length relevant) elapsed)]
    /\ length (rag_usage_stats w') = S (length (rag_usage_stats w)).
Proof.
  intros relevant prompt messages elapsed.
  subst elapsed messages prompt relevant. intros Hemb Hacc Hrel Hins.
  unfold process_query, bind, try_except, datetime_now, of_res.
  rewrite create_embedding_eq. cbn [embed_calls tick_clock].
  rewrite Hemb, search_run. cbn [db_calls after_embed tick_embed tick_clock
    log_event snd]. rewrite Hacc.
  rewrite (search_result_same_tables E v 4 w) by (repeat split).
  rewrite relevant_chunks_total by (apply search_result_similarity).
  assert (Hle : length (filter above_threshold (search_result E v 4 w)) <= 4).
  { etransitivity; [apply filter_length_le|].
    unfold search_result. rewrite length_map. apply firstn_le_length. }
  remember (filter above_threshold (search_result E v 4 w)) as relevant
    eqn:Hr.
  destruct relevant as [|c rel]; [congruence|].
  rewrite get_response_run, log_usage_run.
  match goal with
  | |- context [db_accepts E ?n (InsertUsage ?u ?t ?k ?ms)] =>
    change (db_accepts E n (InsertUsage u t k ms))
      with (db_accepts E (S (db_calls w))
              (InsertUsage uid q (length (c :: rel))
                 (elapsed_ms E (now E (clock_reads w))
                    (now E (S (clock_reads w))))));
    rewrite Hins
  end.
  eexists. split; [reflexivity|]. split; [cbn [length] in *; lia|].
  split; [reflexivity|]. split.
  - cbn [trace set_usage tick_clock tick_db tick_chat tick_embed after_db
         after_chat after_embed log_event snd].
    rewrite <- !app_assoc. reflexivity.
  - cbn [rag_usage_stats set_usage tick_clock tick_db tick_chat tick_embed
         after_db after_chat after_embed log_event snd].
    rewrite length_app. cbn [length]. lia.
Qed.

End AugmentedAnswer.

Section Cleaning.
Import RAGEngine.

Lemma replace_absent old new s :
  contains old s = false -> replace old new s = s.
Proof.
  unfold replace. induction s as [|c r IH]; [reflexivity|].
  cbn [contains replace_go]. intros H. apply orb_false_iff in H.
  destruct H as [Hs Hc]. rewrite Hs. f_equal. now apply IH.
Qed.

Lemma lstrip_idempotent s : lstrip (lstrip s) = lstrip s.
Proof.
  induction s as [|c r IH]; [reflexivity|]. cbn [lstrip].
  destruct (is_space c) eqn:Hc; [exact IH|]. cbn [lstrip]. now rewrite Hc.
Qed.

Lemma rstrip_idempotent s : rstrip (rstrip s) = rstrip s.
Proof.
  unfold rstrip. now rewrite rev_involutive, lstrip_idempotent.
Qed.

Lemma lstrip_snoc l c :
  is_space c = false -> exists l', lstrip (l ++ [c]) = l' ++ [c].
Proof.
  intros Hc. induction l as [|x l IH]; cbn [app lstrip].
  - rewrite Hc. now exists [].
  - destruct (is_space x); [exact IH|]. now exists (x :: l).
Qed.

Lemma lstrip_fixed_head s :
  lstrip s = s -> s = [] \/ exists c r, s = c :: r /\ is_space c = false.
Proof.
  destruct s as [|c r]; [now left|]. cbn [lstrip].
  destruct (is_space c) eqn:Hc; intros H.
  - exfalso.
    assert (Hlen : forall l, length (lstrip l) <= length l).
    { induction l as [|x l IH]; cbn [lstrip]; [lia|].
      destruct (is_space x); cbn [length] in *; lia. }
    pose proof (Hlen r) as Hr. rewrite H in Hr. cbn in Hr. lia.
  - right. now exists c, r.
Qed.

Lemma lstrip_rstrip s : lstrip s = s -> lstrip (rstrip s) = rstrip s.
Proof.
  intros Hfix. destruct (lstrip_fixed_head s Hfix) as [->|(c & r & -> & Hc)].
  - reflexivity.
  - unfold rstrip. cbn [rev].
    destruct (lstrip_snoc (rev r) c Hc) as (l' & Hl). rewrite Hl.
    rewrite rev_app_distr. cbn [rev app lstrip]. now rewrite Hc.
Qed.

Lemma strip_idempotent s : strip (strip s) = strip s.
Proof.
  unfold strip at 1.
  assert (H : lstrip (strip s) = strip s).
  { unfold strip. apply lstrip_rstrip, lstrip_idempotent. }
  rewrite H. unfold strip. apply rstrip_idempotent.
Qed.

(** X15.  [_clean_response] returns a trimmed text (trimming it again
    changes nothing), and a response in which neither tag occurs is
    only trimmed. *)
Theorem clean_response_trims response :
  strip (_clean_response response) = _clean_response response
  /\ (contains (lit "[Источник:") response = false ->
      contains (lit "релевантность:") response = false ->
      _clean_response response = strip response).
Proof.
  unfold _clean_response. split.
  - apply strip_idempotent.
  - intros H1 H2. now rewrite (replace_absent _ _ _ H1), (replace_absent _ _ _ H2).
Qed.

End Cleaning.

Section Messages.
Import OpenAIAssistant.

(** X16.  The messages sent to the provider are the system prompt
    chosen by the RAG flag, then the last six messages of the history at
    most (all of it when it has no more), then the user's message. *)
Theorem messages_are_bounded a msg hist rag :
  exists tail,
    build_messages a msg hist rag
    = {| role := lit "system";
         content := if rag then system_prompt_rag a else system_prompt a |}
      :: tail ++ [{| role := lit "user"; content := Some msg |}]
    /\ length tail <= 6
    /\ match hist with
       | Some h =>
         (exists dropped, h = dropped ++ tail)
         /\ (length h <= 6 -> tail = h)
         /\ (6 < length h -> length tail = 6)
       | None => tail = []
       end.
Proof.
  unfold build_messages. destruct hist as [[|m h]|].
  - exists []. split; [destruct rag; reflexivity|].
    split; [cbn; lia|]. split; [now exists []|].
    split; [reflexivity|cbn; lia].
  - exists (bound_history (m :: h)).
    split; [destruct rag; reflexivity|].
    unfold bound_history. cbn [Nat.mul Nat.add].
    destruct (6 <? length (m :: h)) eqn:Hlen.
    + apply Nat.ltb_lt in Hlen. rewrite length_skipn.
      split; [lia|]. split; [|split].
      * exists (firstn (length (m :: h) - 6) (m :: h)).
        symmetry. apply firstn_skipn.
      * lia.
      * lia.
    + apply Nat.ltb_ge in Hlen.
      split; [exact Hlen|]. split; [|split].
      * now exists [].
      * reflexivity.
      * lia.
  - exists []. split; [destruct rag; reflexivity|].
    split; [cbn; lia|reflexivity].
Qed.

End Messages.

Section StartupOutcome.
Context (E : Env).
Import RagSystem.

Lemma sleeps_of_app t u : sleeps_of (t ++ u) = sleeps_of t ++ sleeps_of u.
Proof. apply flat_map_app. Qed.

Lemma sleeps_of_failed_attempts k :
  forall attempt,
    sleeps_of (failed_attempts attempt k ++ [EvConnect])
    = map backoff_delay (seq attempt k).
Proof.
  induction k as [|k IH]; intros attempt; [reflexivity|].
  cbn [failed_attempts seq map]. rewrite <- IH. reflexivity.
Qed.

(** Among the next [n] connection attempts either all fail or there is
    a first one that succeeds. *)
Lemma first_success n c :
  (forall j, j < n -> exists e, db_connect E (c + j) = Raise e)
  \/ (exists k, k < n
        /\ (forall j, j < k -> exists e, db_connect E (c + j) = Raise e)
        /\ db_connect E (c + k) = Ok tt).
Proof.
  induction n as [|n [Hall|(k & Hk & Hfail & Hok)]].
  - left. intros j Hj. lia.
  - destruct (db_connect E (c + n)) as [[]|e] eqn:Hn.
    + right. exists n. auto.
    + left. intros j Hj. destruct (Nat.eq_dec j n) as [->|Hne].
      * now exists e.
      * apply Hall. lia.
  - right. exists k. split; [lia|]. auto.
Qed.

Lemma quiet_ret {A} (a : A) : quiet (ret a).
Proof. intros w. split; reflexivity. Qed.

Lemma quiet_get : quiet get.
Proof. intros w. split; reflexivity. Qed.

Lemma quiet_bind {A B} (m : M A) (k : A -> M B) :
  quiet m -> (forall a, quiet (k a)) -> quiet (bind m k).
Proof.
  intros Hm Hk w. unfold bind. specialize (Hm w).
  destruct (m w) as [[a|e] w1]; cbn [snd] in *; [|exact Hm].
  destruct (Hk a w1) as (H1 & H2). destruct Hm as (H3 & H4).
  split; congruence.
Qed.

Lemma quiet_try {A} (m : M A) (h : exn -> M A) :
  quiet m -> (forall e, quiet (h e)) -> quiet (try_except m h).
Proof.
  intros Hm Hh w. unfold try_except. specialize (Hm w).
  destruct (m w) as [[a|e] w1]; cbn [snd] in *; [exact Hm|].
  destruct (Hh e w1) as (H1 & H2). destruct Hm as (H3 & H4).
  split; congruence.
Qed.

Lemma quiet_execute s : quiet (RAGDatabase.execute E s).
Proof.
  intros w. unfold RAGDatabase.execute. cbn [log_event].
  destruct (db_accepts E (db_calls w) s); cbn [snd connect_calls trace tick_db];
    (split; [reflexivity|]); rewrite sleeps_of_app; cbn; apply app_nil_r.
Qed.

(** [get_stats] makes no connection attempt, sleeps no delay and never
    raises. *)
Lemma get_stats_quiet w :
  exists r w',
    RAGEngine.get_stats E w = (Ok r, w')
    /\ connect_calls w' = connect_calls w
    /\ sleeps_of (trace w') = sleeps_of (trace w).
Proof.
  assert (Hq : quiet (RAGEngine.get_stats E)).
  { unfold RAGEngine.get_stats. apply quiet_try.
    - repeat (apply quiet_bind; [apply quiet_execute|intros _]).
      apply quiet_bind; [apply quiet_get|intros w0; apply quiet_ret].
    - intros e. apply quiet_ret. }
  destruct (try_except_ret_ok
              (RAGDatabase.execute E CountDocuments ;;
               RAGDatabase.execute E CountChunks ;;
               RAGDatabase.execute E CountUsageToday ;;
               RAGDatabase.execute E CountUsage ;;
               w0 <- get ;;
               ret (Some (length (rag_documents w0), length (rag_chunks w0),
                          length (rag_usage_stats w0))))%py
              (fun _ => None) w) as (r & w' & Hrun).
  exists r, w'. split; [exact Hrun|].
  specialize (Hq w). unfold RAGEngine.get_stats in Hq. rewrite Hrun in Hq.
  exact Hq.
Qed.

(** X17.  [init_rag_system] never raises and makes at most five
    connection attempts.  It returns [True] exactly when RAG is enabled,
    the store address is set, one of the five attempts succeeds and the
    embedding client is constructed. *)
Theorem init_rag_system_outcome s w :
  exists b w',
    init_rag_system E s w = (Ok b, w')
    /\ connect_calls w <= connect_calls w' <= connect_calls w + max_retries
    /\ (b = true <->
        RAG_ENABLED s = true
        /\ truthy (POSTGRES_PORT_RAG s) = true
        /\ (exists j, j < max_retries
              /\ db_connect E (connect_calls w + j) = Ok tt)
        /\ new_embedding_client E (OPENAI_API_KEY s) = Ok tt).
Proof.
  unfold init_rag_system.
  destruct (RAG_ENABLED s) eqn:Hen; cbn [negb].
  2:{ exists false, w. split; [reflexivity|]. split; [lia|].
      split; [discriminate|]. intros (H & _). discriminate H. }
  destruct (truthy (POSTGRES_PORT_RAG s)) eqn:Hurl; cbn [negb].
  2:{ exists false, w. split; [reflexivity|]. split; [lia|].
      split; [discriminate|]. intros (_ & H & _). discriminate H. }
  destruct (first_success max_retries (connect_calls w))
    as [Hall|(k & Hk & Hfail & Hok)].
  - destruct (connect_loop_exhausted E 4 0 w eq_refl Hall)
      as (e & w1 & Hrun & Hcc & _).
    exists false, w1. unfold try_except, bind.
    change (seq 0 max_retries) with (seq 0 5). rewrite Hrun.
    split; [reflexivity|]. split; [unfold max_retries; lia|].
    split; [discriminate|]. intros (_ & _ & (j & Hj & Hj') & _).
    destruct (Hall j Hj) as (e' & He'). congruence.
  - destruct (connect_loop_backoff E k 0 max_retries w) as (w1 & Hrun & Hcc & _);
      [lia|exact Hk|exact Hfail|exact Hok|].
    unfold try_except, bind. rewrite Hrun. unfold of_res.
    destruct (new_embedding_client E (OPENAI_API_KEY s)) as [[]|e] eqn:Hcl.
    + destruct (get_stats_quiet w1) as (r & w2 & Hst & Hcc2 & _).
      rewrite Hst. exists true, w2. split; [reflexivity|].
      split; [unfold max_retries in *; lia|].
      split; [|reflexivity]. intros _.
      split; [reflexivity|]. split; [reflexivity|].
      split; [exists k; split; assumption|reflexivity].
    + exists false, w1. split; [reflexivity|].
      split; [unfold max_retries in *; lia|].
      split; [discriminate|]. intros (_ & _ & _ & H). discriminate H.
Qed.

(** X18.  With RAG enabled and the store address set, when the first
    [k] connection attempts fail and the next one succeeds (k below
    five), start-up makes exactly k + 1 attempts and sleeps exactly the
    delays 2, 4, 8, ... of the k failed attempts, in this order. *)
Theorem startup_backoff_until_connected s w k :
  RAG_ENABLED s = true ->
  truthy (POSTGRES_PORT_RAG s) = true ->
  k < max_retries ->
  (forall j, j < k -> exists e, db_connect E (connect_calls w + j) = Raise e) ->
  db_connect E (connect_calls w + k) = Ok tt ->
  let w' := snd (init_rag_system E s w) in
  connect_calls w' = connect_calls w + S k
  /\ sleeps_of (trace w')
     = sleeps_of (trace w) ++ map backoff_delay (seq 0 k).
Proof.
  intros Hen Hurl Hk Hfail Hok. unfold init_rag_system.
  rewrite Hen, Hurl. cbn [negb].
  destruct (connect_loop_backoff E k 0 max_retries w)
    as (w1 & Hrun & Hcc & Htr);
    [lia|exact Hk|exact Hfail|exact Hok|].
  assert (Hsl : sleeps_of (trace w1)
                = sleeps_of (trace w) ++ map backoff_delay (seq 0 k)).
  { rewrite Htr, sleeps_of_app. f_equal. apply sleeps_of_failed_attempts. }
  unfold try_except, bind. rewrite Hrun. unfold of_res.
  destruct (new_embedding_client E (OPENAI_API_KEY s)) as [[]|e].
  - destruct (get_stats_quiet w1) as (r & w2 & Hst & Hcc2 & Hsl2).
    rewrite Hst. cbn [snd ret]. split; congruence.
  - cbn [snd ret]. split; assumption.
Qed.

End StartupOutcome.

Section UploadRoundTrip.
Context (E : Env).

(** A successful [process_file] is a successful [_process_and_save] of
    the extracted text under the digest of the bytes, on the same
    tables. *)
Lemma process_file_success_inv b fn uid w doc fn' created len w' :
  process_file E b fn uid w = (Ok (UploadOk doc fn' created len), w') ->
  exists text w0,
    same_tables w w0
    /\ _process_and_save E text fn (md5_hexdigest E b) uid w0
       = (Ok (UploadOk doc fn' created len), w').
Proof.
  rewrite process_file_dispatch. intros Hrun.
  destruct (kind_of_ext (file_ext E fn)) as [[| |]|].
  - unfold process_pdf, _extract_pdf_text, try_except, bind in Hrun.
    rewrite select_run in Hrun.
    destruct (db_accepts E _ _); [|inversion Hrun].
    destruct (truthy_id _); [inversion Hrun|].
    cbn [log_event ret] in Hrun.
    destruct (negb _ || _); [inversion Hrun|].
    match type of Hrun with
    | context [_process_and_save E ?t _ _ _ ?w0] =>
      exists t, w0;
      destruct (_process_and_save E t fn (md5_hexdigest E b) uid w0)
        as [[r0|e] w1] eqn:Hsave
    end; [|inversion Hrun].
    split; [repeat split|]. now inversion Hrun; subst.
  - unfold process_text, try_except, bind in Hrun.
    rewrite select_run in Hrun.
    destruct (db_accepts E _ _); [|inversion Hrun].
    destruct (truthy_id _); [inversion Hrun|].
    cbn [log_event] in Hrun.
    destruct (decoded_text b) as [t|]; [|inversion Hrun].
    destruct (negb _ || _); [inversion Hrun|].
    match type of Hrun with
    | context [_process_and_save E ?t _ _ _ ?w0] =>
      exists t, w0;
      destruct (_process_and_save E t fn (md5_hexdigest E b) uid w0)
        as [[r0|e] w1] eqn:Hsave
    end; [|inversion Hrun].
    split; [repeat split|]. now inversion Hrun; subst.
  - unfold process_docx, _extract_docx_text, try_except, bind in Hrun.
    rewrite select_run in Hrun.
    destruct (db_accepts E _ _); [|inversion Hrun].
    destruct (truthy_id _); [inversion Hrun|].
    cbn [log_event ret] in Hrun.
    destruct (negb _ || _); [inversion Hrun|].
    match type of Hrun with
    | context [_process_and_save E ?t _ _ _ ?w0] =>
      exists t, w0;
      destruct (_process_and_save E t fn (md5_hexdigest E b) uid w0)
        as [[r0|e] w1] eqn:Hsave
    end; [|inversion Hrun].
    split; [repeat split|]. now inversion Hrun; subst.
  - inversion Hrun.
Qed.

(** What a successful upload adds to a consistent store. *)
Lemma upload_adds b fn uid w doc fn' created len w' :
  consistent w ->
  process_file E b fn uid w = (Ok (UploadOk doc fn' created len), w') ->
  exists rows,
    doc = documents_seq w
    /\ rag_chunks w' = rag_chunks w ++ rows
    /\ rag_documents w'
       = rag_documents w ++
           [{| doc_id := doc; doc_filename := fn;
               doc_file_hash := md5_hexdigest E b;
               doc_uploaded_by := uid; doc_total_chunks := created |}]
    /\ created = length rows
    /\ (forall r, In r rows -> ch_document_id r = doc).
Proof.
  intros Hcons Hrun.
  destruct (process_file_success_inv _ _ _ _ _ _ _ _ _ Hrun)
    as (text & w0 & Hsame & Hsave).
  pose proof (same_tables_consistent _ _ Hsame Hcons) as Hcons0.
  destruct (process_and_save_ok _ _ _ _ _ _ _ _ _ _ _ Hcons0 Hsave)
    as (rows & Hdoc & Hch & Hdocs & Hcr & _ & Hrows).
  destruct Hsame as (Hd & Hc & _ & Hs).
  exists rows. rewrite <- Hd, <- Hc, <- Hs.
  split; [exact Hdoc|]. split; [exact Hch|].
  split; [now rewrite Hcr|]. split; [exact Hcr|].
  intros r Hr. apply (Hrows r Hr).
Qed.

(** X19.  Deleting the document that a successful upload has just
    stored undoes the upload: [delete_document] returns [True] and the
    document and chunk tables are what they were before the upload. *)
Theorem upload_then_delete b fn uid w doc fn' created len w' :
  consistent w ->
  process_file E b fn uid w = (Ok (UploadOk doc fn' created len), w') ->
  fst (RAGDatabase.delete_document true doc w') = Ok true
  /\ rag_documents (snd (RAGDatabase.delete_document true doc w'))
     = rag_documents w
  /\ rag_chunks (snd (RAGDatabase.delete_document true doc w'))
     = rag_chunks w.
Proof.
  intros Hcons Hrun.
  destruct (upload_adds _ _ _ _ _ _ _ _ _ Hcons Hrun)
    as (rows & Hdoc & Hch & Hdocs & _ & Hrows).
  destruct Hcons as (_ & Hser & Hfk).
  assert (Hold : forall d, In d (rag_documents w) ->
                   (doc_id d =? doc)%Z = false).
  { intros d Hd. apply Z.eqb_neq. specialize (Hser d Hd). lia. }
  unfold RAGDatabase.delete_document.
  cbn [fst snd tick_db rag_documents rag_chunks set_documents set_chunks].
  rewrite Hdocs, Hch, !filter_app. cbn [filter doc_id].
  rewrite Z.eqb_refl. cbn [negb].
  repeat apply conj.
  - rewrite (filter_none _ (rag_documents w)) by exact Hold.
    vm_compute. reflexivity.
  - rewrite filter_all; [apply app_nil_r|].
    intros d Hd. now rewrite Hold.
  - rewrite (filter_none _ rows).
    + rewrite app_nil_r. apply filter_all. intros c Hc.
      destruct (Hfk c Hc) as (d & Hd & Heq). rewrite <- Heq.
      now rewrite Hold.
    + intros r Hr. rewrite (Hrows r Hr), Z.eqb_refl. reflexivity.
Qed.

(** X20.  The counts of [get_document_stats] after a successful upload
    on a consistent store: one document more than before, and as many
    chunks more as the upload reports created. *)
Theorem stats_after_upload b fn uid w doc fn' created len w' :
  consistent w ->
  process_file E b fn uid w = (Ok (UploadOk doc fn' created len), w') ->
  db_accepts E (db_calls w') CountDocuments = true ->
  db_accepts E (S (db_calls w')) CountChunks = true ->
  fst (RAGDatabase.get_document_stats E w')
  = Ok (S (length (rag_documents w)), length (rag_chunks w) + created).
Proof.
  intros Hcons Hrun Hd Hc.
  destruct (upload_adds _ _ _ _ _ _ _ _ _ Hcons Hrun)
    as (rows & _ & Hch & Hdocs & Hcr & _).
  unfold RAGDatabase.get_document_stats, RAGDatabase.execute, bind, get, ret.
  cbn [log_event tick_db db_calls]. rewrite Hd.
  cbn [log_event tick_db db_calls]. rewrite Hc.
  cbn [fst rag_documents rag_chunks tick_db].
  rewrite Hdocs, Hch, !length_app, Hcr. cbn [length].
  f_equal. f_equal. lia.
Qed.

End UploadRoundTrip.

(* ===================================================================== *)
(** ** Concrete runs *)
(* ===================================================================== *)

Section Runs.
Import Demo RAGEngine.

Lemma run_eq {A} (m : M A) (w : world) (r : res A) :
  fst (m w) = r -> m w = (r, snd (m w)).
Proof. intros <-. apply surjective_pairing. Qed.

Local Notation gap_run :=
  (_process_and_save second_embedding_fails three_paragraphs
     (lit "p.txt") (lit "h") 7 empty_world).

(** Witness of C1: three chunks, the second one skipped. *)
Lemma partial_failure_invariant_witness :
  consistent empty_world
  /\ fst gap_run = Ok (UploadOk 1 (lit "p.txt") 2 1804)
  /\ embedded_positions second_embedding_fails 0
       (split_text second_embedding_fails three_paragraphs) = [0; 2]
  /\ map ch_chunk_index (chunks_of 1 (snd gap_run)) = [0; 2]
  /\ (exists d, documents_with_id 1 (snd gap_run) = [d]
                /\ doc_total_chunks d = 2)
  /\ (forall c, In c (rag_chunks (snd gap_run)) ->
                ch_document_id c = 1%Z -> ch_chunk_index c <> 1).
Proof.
  assert (Hcons : consistent empty_world).
  { unfold consistent; cbn. repeat apply conj; [lia|intros d []|intros c []]. }
  assert (Hfst : fst gap_run = Ok (UploadOk 1 (lit "p.txt") 2 1804))
    by (vm_compute; reflexivity).
  assert (Hpos : embedded_positions second_embedding_fails 0
                   (split_text second_embedding_fails three_paragraphs)
                 = [0; 2])
    by (vm_compute; reflexivity).
  pose proof (partial_failure_invariant second_embedding_fails _ _ _ _ _ _ _ _ _ _
                Hcons (run_eq _ _ _ Hfst)) as H.
  cbv zeta in H. change (embed_calls empty_world) with 0 in H.
  rewrite Hpos in H.
  destruct H as (Hd & _ & Hidx & Hskip & _).
  split; [|split; [|split; [|split; [|split]]]].
  - exact Hcons.
  - exact Hfst.
  - exact Hpos.
  - exact Hidx.
  - exact Hd.
  - apply (Hskip 1). vm_compute. reflexivity.
Defined.

(** Witness of C9: the rows say 3 chunks, the document says 2. *)
Lemma metadata_counts_attempted_chunks_witness :
  consistent empty_world
  /\ fst gap_run = Ok (UploadOk 1 (lit "p.txt") 2 1804)
  /\ (forall c, In c (chunks_of 1 (snd gap_run)) ->
                md_total_chunks (ch_metadata c) = 3)
  /\ (exists d, documents_with_id 1 (snd gap_run) = [d]
                /\ doc_total_chunks d = 2).
Proof.
  assert (Hcons : consistent empty_world).
  { unfold consistent; cbn. repeat apply conj; [lia|intros d []|intros c []]. }
  assert (Hfst : fst gap_run = Ok (UploadOk 1 (lit "p.txt") 2 1804))
    by (vm_compute; reflexivity).
  assert (Hlen : length (split_text second_embedding_fails three_paragraphs) = 3)
    by (vm_compute; reflexivity).
  assert (Hrows : length (chunks_of 1 (snd gap_run)) = 2)
    by (vm_compute; reflexivity).
  pose proof (metadata_counts_attempted_chunks second_embedding_fails
                _ _ _ _ _ _ _ _ _ _ Hcons (run_eq _ _ _ Hfst)) as H.
  cbv zeta in H. rewrite Hlen, Hrows in H.
  destruct H as (Hmeta & d & Hd & Htot & _).
  split; [|split; [|split]].
  - exact Hcons.
  - exact Hfst.
  - exact Hmeta.
  - exists d. split; [exact Hd|exact Htot].
Defined.

Local Notation wind_run :=
  (process_file plain wind_bytes (lit "w.md") 7 empty_world).
Local Notation wind_again :=
  (process_file plain wind_bytes (lit "copy.txt") 8 (snd wind_run)).

(** Witness of C2: the same bytes under two names. *)
Lemma duplicate_upload_rejected_witness :
  consistent empty_world
  /\ has_digest (md5_hexdigest plain wind_bytes) (snd wind_run) = true
  /\ kind_of_ext (file_ext plain (lit "copy.txt")) <> None
  /\ db_accepts plain (db_calls (snd wind_run))
       (SelectDocumentByHash (md5_hexdigest plain wind_bytes)) = true
  /\ fst wind_run = Ok (UploadOk 1 (lit "w.md") 1 35)
  /\ fst wind_again = Ok (UploadError msg_duplicate)
  /\ rag_documents (snd wind_again) = rag_documents (snd wind_run)
  /\ rag_chunks (snd wind_again) = rag_chunks (snd wind_run)
  /\ embed_calls (snd wind_again) = embed_calls (snd wind_run).
Proof.
  assert (Hcons : consistent empty_world).
  { unfold consistent; cbn. repeat apply conj; [lia|intros d []|intros c []]. }
  assert (Hdig : has_digest (md5_hexdigest plain wind_bytes) (snd wind_run)
                 = true) by (vm_compute; reflexivity).
  assert (Hkind : kind_of_ext (file_ext plain (lit "copy.txt")) <> None)
    by (vm_compute; discriminate).
  assert (Hacc : db_accepts plain (db_calls (snd wind_run))
                   (SelectDocumentByHash (md5_hexdigest plain wind_bytes))
                 = true) by (vm_compute; reflexivity).
  destruct (duplicate_upload_rejected plain wind_bytes (lit "w.md") 7
              (lit "copy.txt") 8 empty_world (fst wind_run) (snd wind_run)
              Hcons (surjective_pairing _) Hdig Hkind Hacc)
    as (w2 & Hrun & (Hd & Hc & _) & He & _).
  rewrite Hrun. cbn [fst snd].
  repeat (split; [assumption || (vm_compute; reflexivity)|]).
  assumption.
Defined.

Local Notation short_run :=
  (process_file plain short_bytes (lit "a.txt") 7 empty_world).

(** Counterexample to C2: three second calls with the bytes of the
    first that are not answered with the duplicate rejection. *)
Lemma duplicate_rejection_not_universal :
  (fst short_run = Ok (UploadError msg_text_unreadable)
   /\ fst (process_file plain short_bytes (lit "a.txt") 7 (snd short_run))
      = Ok (UploadError msg_text_unreadable)
   /\ rag_documents (snd short_run) = [])
  /\ (fst wind_run = Ok (UploadOk 1 (lit "w.md") 1 35)
      /\ fst (process_file plain wind_bytes (lit "w.exe") 7 (snd wind_run))
         = Ok (UploadError (msg_unsupported (lit "exe"))))
  /\ (fst (process_file fifth_statement_refused wind_bytes (lit "w.md") 7
             empty_world)
      = Ok (UploadOk 1 (lit "w.md") 1 35)
      /\ fst (process_file fifth_statement_refused wind_bytes (lit "w.md") 7
                (snd (process_file fifth_statement_refused wind_bytes
                        (lit "w.md") 7 empty_world)))
         = Ok (UploadError (lit "PostgresError")))
  /\ msg_text_unreadable <> msg_duplicate
  /\ msg_unsupported (lit "exe") <> msg_duplicate
  /\ lit "PostgresError" <> msg_duplicate.
Proof.
  repeat apply conj; vm_compute; try reflexivity; discriminate.
Qed.

(** Witness of C7: five characters. *)
Lemma short_text_rejected_witness :
  kind_of_ext (file_ext plain (lit "a.txt")) = Some KindText
  /\ has_digest (md5_hexdigest plain short_bytes) empty_world = false
  /\ db_accepts plain (db_calls empty_world)
       (SelectDocumentByHash (md5_hexdigest plain short_bytes)) = true
  /\ length (strip (extracted_text plain KindText short_bytes)) < 10
  /\ fst short_run = Ok (UploadError msg_text_unreadable)
  /\ rag_documents (snd short_run) = []
  /\ rag_chunks (snd short_run) = []
  /\ embed_calls (snd short_run) = 0.
Proof.
  assert (Hkind : kind_of_ext (file_ext plain (lit "a.txt")) = Some KindText)
    by (vm_compute; reflexivity).
  assert (Hdig : has_digest (md5_hexdigest plain short_bytes) empty_world
                 = false) by (vm_compute; reflexivity).
  assert (Hacc : db_accepts plain (db_calls empty_world)
                   (SelectDocumentByHash (md5_hexdigest plain short_bytes))
                 = true) by (vm_compute; reflexivity).
  assert (Hlen : length (strip (extracted_text plain KindText short_bytes))
                 < 10) by (apply Nat.ltb_lt; vm_compute; reflexivity).
  destruct (short_text_rejected plain short_bytes (lit "a.txt") 7 empty_world
              KindText Hkind Hdig Hacc Hlen)
    as (w' & Hrun & (Hd & Hc & _) & He & _).
  rewrite Hrun. cbn [fst snd msg_unreadable].
  repeat (split; [assumption || reflexivity|]).
  assumption.
Defined.

(** Counterexample to C7: six characters that are not white space,
    eleven characters after trimming; the file is ingested. *)
Lemma spaced_text_passes_floor :
  extracted_text plain KindText spaced_bytes = lit "a b c d e f"
  /\ non_space_count (extracted_text plain KindText spaced_bytes) = 6
  /\ length (strip (extracted_text plain KindText spaced_bytes)) = 11
  /\ fst (process_file plain spaced_bytes (lit "a.txt") 7 empty_world)
     = Ok (UploadOk 1 (lit "a.txt") 1 11)
  /\ length (rag_documents
               (snd (process_file plain spaced_bytes (lit "a.txt") 7
                       empty_world))) = 1
  /\ length (rag_chunks
               (snd (process_file plain spaced_bytes (lit "a.txt") 7
                       empty_world))) = 1
  /\ embed_calls (snd (process_file plain spaced_bytes (lit "a.txt") 7
                         empty_world)) = 1.
Proof.
  repeat apply conj; vm_compute; reflexivity.
Qed.

Local Notation apple := (lit "apple?").
Local Notation apple_run :=
  (process_query plain assistant (lit "apple?") 9 None world_with_b).

(** Witness of C3: the only chunk has similarity 0 to the query. *)
Lemma below_threshold_abstains_witness :
  embed_outcome plain (embed_calls world_with_b) apple = Some [1; 0]%float
  /\ db_accepts plain (db_calls world_with_b)
       (SelectNearestChunks [1; 0]%float 4) = true
  /\ map fc_similarity (search_result plain [1; 0]%float 4 world_with_b)
     = [Some 0%float]
  /\ fst apple_run = Ok None
  /\ chat_calls (snd apple_run) = chat_calls world_with_b
  /\ rag_usage_stats (snd apple_run) = rag_usage_stats world_with_b.
Proof.
  assert (Hemb : embed_outcome plain (embed_calls world_with_b) apple
                 = Some [1; 0]%float) by (vm_compute; reflexivity).
  assert (Hacc : db_accepts plain (db_calls world_with_b)
                   (SelectNearestChunks [1; 0]%float 4) = true)
    by (vm_compute; reflexivity).
  assert (Hsim : map fc_similarity
                   (search_result plain [1; 0]%float 4 world_with_b)
                 = [Some 0%float]) by (vm_compute; reflexivity).
  assert (Hlow : forall c s,
             In c (search_result plain [1; 0]%float 4 world_with_b) ->
             fc_similarity c = Some s ->
             PrimFloat.leb similarity_threshold s = false).
  { intros c s Hin Hs. apply (in_map fc_similarity) in Hin.
    rewrite Hsim, Hs in Hin. destruct Hin as [Heq|[]].
    injection Heq as <-. vm_compute. reflexivity. }
  destruct (below_threshold_abstains plain assistant apple 9 None
              world_with_b [1; 0]%float Hemb Hacc Hlow)
    as (w' & Hrun & Hchat & (_ & _ & Hu & _) & _).
  rewrite Hrun. cbn [fst snd].
  repeat (split; [assumption || reflexivity|]).
  assumption.
Defined.

(** Counterexample to C4: the embedding succeeds and the search is
    executed, the outcome is no-opinion, and no usage row is written;
    likewise when the search is refused and the failure is caught. *)
Lemma abstention_leaves_no_usage_record :
  (embed_outcome plain (embed_calls world_with_b) apple = Some [1; 0]%float
   /\ last (trace (snd apple_run)) EvConnect
      = EvDb (SelectNearestChunks [1; 0]%float 4)
   /\ fst apple_run = Ok None
   /\ rag_usage_stats (snd apple_run) = [])
  /\ (embed_outcome fifth_statement_refused (embed_calls world_with_b)
        (lit "bananas?") = Some [0; 1]%float
      /\ last (trace (snd (process_query fifth_statement_refused assistant
                             (lit "bananas?") 9 None world_with_b)))
              EvConnect
         = EvDb (SelectNearestChunks [0; 1]%float 4)
      /\ fst (process_query fifth_statement_refused assistant
                (lit "bananas?") 9 None world_with_b) = Ok None
      /\ rag_usage_stats
           (snd (process_query fifth_statement_refused assistant
                   (lit "bananas?") 9 None world_with_b)) = []).
Proof.
  repeat apply conj; vm_compute; reflexivity.
Qed.

(** A successful query for comparison: one chunk used, one usage row. *)
Lemma successful_query_is_recorded :
  option_map (fun qr => (qr_response qr, qr_chunks_used qr,
                         qr_response_time_ms qr))
    (match fst (process_query plain assistant (lit "bananas?") 9 None
                  world_with_b) with
     | Ok r => r
     | Raise _ => None
     end)
  = Some (lit "About 35%.", 1, 1000%Z)
  /\ rag_usage_stats
       (snd (process_query plain assistant (lit "bananas?") 9 None
               world_with_b))
     = [{| us_id := 1; us_user_id := 9; us_query := lit "bananas?";
           us_chunks_used := 1; us_response_time_ms := 1000 |}].
Proof.
  apply conj; vm_compute; reflexivity.
Qed.

(** Counterexample to C5: the empty text fails the request, and the
    text beside it, which is embedded when sent alone, gets the failure
    marker too. *)
Lemma batch_failure_is_shared :
  fst (EmbeddingService.create_embeddings_batch plain [lit "hello"; []]
         empty_world)
  = Ok [None; None]
  /\ fst (EmbeddingService.create_embedding plain (lit "hello") empty_world)
     = Ok (Some (demo_vector (lit "hello")))
  /\ fst (EmbeddingService.create_embeddings_batch plain [lit "hello"]
            empty_world)
     = Ok [Some (demo_vector (lit "hello"))]
  /\ fst (EmbeddingService.create_embedding plain [] empty_world) = Ok None.
Proof.
  repeat apply conj; vm_compute; reflexivity.
Qed.

(** Witness of C6: the store is down during all five attempts. *)
Lemma startup_retry_exhaustion_contained_witness :
  RagSystem.RAG_ENABLED settings = true
  /\ truthy (RagSystem.POSTGRES_PORT_RAG settings) = true
  /\ (forall j, j < RagSystem.max_retries ->
        exists e, db_connect store_down (connect_calls empty_world + j)
                  = Raise e)
  /\ fst (RagSystem.init_rag_system store_down settings empty_world)
     = Ok false
  /\ sleeps_of (trace (snd (RagSystem.init_rag_system store_down settings
                              empty_world)))
     = [2; 4; 8; 16]%Z.
Proof.
  assert (Hrag : RagSystem.RAG_ENABLED settings = true) by reflexivity.
  assert (Hurl : truthy (RagSystem.POSTGRES_PORT_RAG settings) = true)
    by (vm_compute; reflexivity).
  assert (Hfail : forall j, j < RagSystem.max_retries ->
             exists e, db_connect store_down (connect_calls empty_world + j)
                       = Raise e).
  { intros j Hj. exists ConnectionError.
    do 5 (destruct j as [|j]; [reflexivity|]).
    unfold RagSystem.max_retries in Hj. lia. }
  destruct (startup_retry_exhaustion_contained store_down settings
              empty_world Hrag Hurl Hfail)
    as (w' & _ & Hinit & _ & _ & Hsleeps & _).
  rewrite Hinit. cbn [fst snd].
  repeat (split; [assumption || reflexivity|]).
  exact Hsleeps.
Defined.

(** Counterexample to C6: all five attempts fail, and the call returns
    [False]; start-up goes on without RAG. *)
Lemma exhaustion_does_not_halt_startup :
  map (db_connect store_down) (seq 0 5)
  = repeat (Raise ConnectionError) 5
  /\ RagSystem.init_rag_system store_down settings empty_world
     = RagSystem.main_init_rag store_down settings empty_world
  /\ fst (RagSystem.init_rag_system store_down settings empty_world)
     = Ok false
  /\ fst (RagSystem.main_init_rag store_down settings empty_world) = Ok false
  /\ trace (snd (RagSystem.init_rag_system store_down settings empty_world))
     = [EvConnect; EvSleep 2; EvConnect; EvSleep 4; EvConnect; EvSleep 8;
        EvConnect; EvSleep 16; EvConnect].
Proof.
  repeat apply conj; vm_compute; reflexivity.
Qed.

(** The context block of one surviving chunk. *)
Lemma context_block_of_wind_document :
  _build_context plain
    (filter above_threshold
       (search_result plain (demo_vector (lit "What is it?")) 4
          world_with_wind))
  = lit "[Источник: w.md, релевантность: 1.00]:" ++ [10%N]
    ++ lit "Wind turbines: capacity factor 35%.".
Proof. vm_compute. reflexivity. Qed.

(** The two fallback messages. *)
Lemma fallback_messages :
  fst (OpenAIAssistant.get_response chat_times_out assistant (lit "hi") 9
         None 15 false empty_world)
  = Ok OpenAIAssistant.msg_timeout
  /\ fst (OpenAIAssistant.get_response chat_rate_limited assistant (lit "hi")
            9 None 15 false empty_world)
     = Ok OpenAIAssistant.msg_unavailable
  /\ fst (OpenAIAssistant.get_response plain assistant (lit "hi") 9 None 15
            false empty_world)
     = Ok (lit "About 35%.").
Proof.
  repeat apply conj; vm_compute; reflexivity.
Qed.

(** Witness of X3: the first upload into the empty store. *)
Lemma process_file_keeps_store_sound_witness :
  consistent empty_world /\ keyed empty_world
  /\ consistent (snd wind_run) /\ keyed (snd wind_run).
Proof.
  assert (Hcons : consistent empty_world).
  { unfold consistent; cbn. repeat apply conj; [lia|intros d []|intros c []]. }
  assert (Hkey : keyed empty_world) by constructor.
  split; [exact Hcons|]. split; [exact Hkey|].
  exact (process_file_keeps_store_sound plain wind_bytes (lit "w.md") 7
           empty_world Hcons Hkey).
Defined.

(** Witness of X4: an executable. *)
Lemma unsupported_extension_rejected_witness :
  kind_of_ext (file_ext plain (lit "w.exe")) = None
  /\ process_file plain wind_bytes (lit "w.exe") 7 empty_world
     = (Ok (UploadError (msg_unsupported (file_ext plain (lit "w.exe")))),
        empty_world).
Proof.
  assert (Hkind : kind_of_ext (file_ext plain (lit "w.exe")) = None)
    by (vm_compute; reflexivity).
  split; [exact Hkind|].
  exact (unsupported_extension_rejected plain wind_bytes (lit "w.exe") 7
           empty_world Hkind).
Defined.

(** Witness of X7: three letters between spaces. *)
Lemma floor_rejects_only_sparse_texts_witness :
  length (strip (lit "  a b c  ")) < 10
  /\ non_space_count (lit "  a b c  ") < 10.
Proof.
  assert (Hlen : length (strip (lit "  a b c  ")) < 10)
    by (apply Nat.ltb_lt; vm_compute; reflexivity).
  split; [exact Hlen|].
  exact (floor_rejects_only_sparse_texts (lit "  a b c  ") Hlen).
Defined.

(** Witness of X10: a query on the empty store. *)
Lemma empty_store_abstains_witness :
  rag_chunks empty_world = []
  /\ exists w',
       process_query plain assistant apple 9 None empty_world = (Ok None, w')
       /\ chat_calls w' = chat_calls empty_world
       /\ same_tables empty_world w'.
Proof.
  split; [reflexivity|].
  exact (empty_store_abstains plain assistant apple 9 None empty_world
           eq_refl).
Defined.

Local Notation two_documents :=
  (snd (process_file plain b_bytes (lit "b.txt") 7 (snd wind_run))).

(** Witness of X12: two documents, the first one deleted; the search
    still finds the chunk of the second. *)
Lemma search_after_delete_witness :
  map ch_document_id (rag_chunks two_documents) = [1; 2]%Z
  /\ exists c,
       In c (search_result plain [0; 1]%float 4
               (snd (RAGDatabase.delete_document true 1 two_documents)))
       /\ exists row,
            In row (rag_chunks two_documents)
            /\ ch_document_id row <> 1%Z
            /\ fc_id c = ch_id row
            /\ fc_content c = ch_content row.
Proof.
  assert (Hids : map ch_document_id (rag_chunks two_documents) = [1; 2]%Z)
    by (vm_compute; reflexivity).
  assert (Hfound : exists c r,
            search_result plain [0; 1]%float 4
              (snd (RAGDatabase.delete_document true 1 two_documents))
            = c :: r).
  { vm_compute. eexists. eexists. reflexivity. }
  destruct Hfound as (c & r & Hfound).
  assert (Hin : In c (search_result plain [0; 1]%float 4
                        (snd (RAGDatabase.delete_document true 1
                                two_documents)))).
  { rewrite Hfound. left. reflexivity. }
  split; [exact Hids|]. exists c. split; [exact Hin|].
  exact (search_after_delete plain 1 [0; 1]%float 4 two_documents c Hin).
Defined.

(** Witness of X14: a query that the stored chunk answers. *)
Lemma augmented_answer_witness :
  embed_outcome plain (embed_calls world_with_b) (lit "bananas?")
  = Some [0; 1]%float
  /\ db_accepts plain (db_calls world_with_b)
       (SelectNearestChunks [0; 1]%float 4) = true
  /\ filter above_threshold (search_result plain [0; 1]%float 4 world_with_b)
     <> []
  /\ exists qr w',
       process_query plain assistant (lit "bananas?") 9 None world_with_b
       = (Ok (Some qr), w')
       /\ qr_chunks_used qr = 1
       /\ qr_response qr = lit "About 35%."
       /\ chat_calls w' = S (chat_calls world_with_b).
Proof.
  assert (Hemb : embed_outcome plain (embed_calls world_with_b)
                   (lit "bananas?") = Some [0; 1]%float)
    by (vm_compute; reflexivity).
  assert (Hacc : db_accepts plain (db_calls world_with_b)
                   (SelectNearestChunks [0; 1]%float 4) = true)
    by (vm_compute; reflexivity).
  assert (Hrel : filter above_threshold
                   (search_result plain [0; 1]%float 4 world_with_b) <> [])
    by (vm_compute; discriminate).
  pose proof (augmented_answer plain assistant (lit "bananas?") 9 None
                world_with_b [0; 1]%float) as H.
  cbv zeta in H.
  destruct (H Hemb Hacc Hrel eq_refl) as (w' & Hrun & _ & Hchat & _).
  split; [exact Hemb|]. split; [exact Hacc|]. split; [exact Hrel|].
  eexists. exists w'. split; [exact Hrun|].
  split; [vm_compute; reflexivity|].
  split; [vm_compute; reflexivity|exact Hchat].
Defined.

(** Witness of X18: two failed attempts, then the store answers. *)
Lemma startup_backoff_until_connected_witness :
  (forall j, j < 2 ->
     exists e, db_connect store_recovers (connect_calls empty_world + j)
               = Raise e)
  /\ db_connect store_recovers (connect_calls empty_world + 2) = Ok tt
  /\ connect_calls (snd (RagSystem.init_rag_system store_recovers settings
                           empty_world)) = 3
  /\ sleeps_of (trace (snd (RagSystem.init_rag_system store_recovers settings
                              empty_world)))
     = [2; 4]%Z.
Proof.
  assert (Hurl : truthy (RagSystem.POSTGRES_PORT_RAG settings) = true)
    by (vm_compute; reflexivity).
  assert (Hk : 2 < RagSystem.max_retries)
    by (apply Nat.ltb_lt; vm_compute; reflexivity).
  assert (Hfail : forall j, j < 2 ->
             exists e, db_connect store_recovers
                         (connect_calls empty_world + j) = Raise e).
  { intros j Hj. exists ConnectionError.
    do 2 (destruct j as [|j]; [reflexivity|]). lia. }
  destruct (startup_backoff_until_connected store_recovers settings
              empty_world 2 eq_refl Hurl Hk Hfail eq_refl) as (Hcc & Hsl).
  split; [exact Hfail|]. split; [reflexivity|].
  split; [exact Hcc|exact Hsl].
Defined.

(** Witness of X19: the first upload, deleted again. *)
Lemma upload_then_delete_witness :
  consistent empty_world
  /\ fst wind_run = Ok (UploadOk 1 (lit "w.md") 1 35)
  /\ fst (RAGDatabase.delete_document true 1 (snd wind_run)) = Ok true
  /\ rag_documents (snd (RAGDatabase.delete_document true 1 (snd wind_run)))
     = rag_documents empty_world
  /\ rag_chunks (snd (RAGDatabase.delete_document true 1 (snd wind_run)))
     = rag_chunks empty_world.
Proof.
  assert (Hcons : consistent empty_world).
  { unfold consistent; cbn. repeat apply conj; [lia|intros d []|intros c []]. }
  assert (Hfst : fst wind_run = Ok (UploadOk 1 (lit "w.md") 1 35))
    by (vm_compute; reflexivity).
  split; [exact Hcons|]. split; [exact Hfst|].
  exact (upload_then_delete plain wind_bytes (lit "w.md") 7 empty_world
           1 (lit "w.md") 1 35 (snd wind_run) Hcons (run_eq _ _ _ Hfst)).
Defined.

(** Witness of X20: the first upload, counted. *)
Lemma stats_after_upload_witness :
  consistent empty_world
  /\ fst wind_run = Ok (UploadOk 1 (lit "w.md") 1 35)
  /\ fst (RAGDatabase.get_document_stats plain (snd wind_run))
     = Ok (S (length (rag_documents empty_world)),
           length (rag_chunks empty_world) + 1).
Proof.
  assert (Hcons : consistent empty_world).
  { unfold consistent; cbn. repeat apply conj; [lia|intros d []|intros c []]. }
  assert (Hfst : fst wind_run = Ok (UploadOk 1 (lit "w.md") 1 35))
    by (vm_compute; reflexivity).
  split; [exact Hcons|]. split; [exact Hfst|].
  exact (stats_after_upload plain wind_bytes (lit "w.md") 7 empty_world
           1 (lit "w.md") 1 35 (snd wind_run) Hcons (run_eq _ _ _ Hfst)
           eq_refl eq_refl).
Defined.

(** Witness of X21: three paragraphs under a new digest. *)
Lemma process_and_save_completes_witness :
  (forall k s, db_accepts plain k s = true)
  /\ has_digest (lit "h") empty_world = false
  /\ split_text plain three_paragraphs <> []
  /\ exists doc created w',
       _process_and_save plain three_paragraphs (lit "p.txt") (lit "h") 7
         empty_world
       = (Ok (UploadOk doc (lit "p.txt") created (length three_paragraphs)),
          w').
Proof.
  assert (Hall : forall k s, db_accepts plain k s = true)
    by (intros k s; reflexivity).
  assert (Hnew : has_digest (lit "h") empty_world = false) by reflexivity.
  assert (Hsplit : split_text plain three_paragraphs <> [])
    by (vm_compute; discriminate).
  split; [exact Hall|]. split; [exact Hnew|]. split; [exact Hsplit|].
  exact (process_and_save_completes plain three_paragraphs (lit "p.txt")
           (lit "h") 7 empty_world Hall Hnew Hsplit).
Defined.

(** Witness of X22: the digest of the first upload. *)
Lemma success_stores_digest_witness :
  fst wind_run = Ok (UploadOk 1 (lit "w.md") 1 35)
  /\ has_digest (md5_hexdigest plain wind_bytes) (snd wind_run) = true.
Proof.
  assert (Hfst : fst wind_run = Ok (UploadOk 1 (lit "w.md") 1 35))
    by (vm_compute; reflexivity).
  split; [exact Hfst|].
  exact (success_stores_digest plain wind_bytes (lit "w.md") 7 empty_world
           _ _ (run_eq _ _ _ Hfst) eq_refl).
Defined.

Local Notation three_run :=
  (_process_and_save plain three_paragraphs (lit "p.txt") (lit "h") 7
     empty_world).
Local Notation cost_query := (demo_vector (lit "cost?")).
Local Notation cost_survivors :=
  (filter above_threshold (search_result plain cost_query 4 (snd three_run))).



End Runs.
